(** * simple-deps: the manifest engine of [dependencies.go]

    A shallow embedding of [Dependencies.Read], [Dependencies.Write],
    [Dependencies.SaveModified] and [Dependencies.Refresh], together with the
    parts of the Go standard library they call ([strings], [bufio], [path],
    [path/filepath] on Unix, [net/url]).

    Go strings are byte sequences and are modelled by [string] (a list of
    [ascii], one per byte).  Go maps are [gmap]s.  The file system and the
    fetch / render collaborators are explicit: a manifest store for
    [Read]/[Write], and an abstract world with operations for [Refresh]. *)

From Stdlib Require Import ZArith NArith Ascii String List Lia Bool.
From stdpp Require Import gmap strings list fin_maps.

Local Open Scope string_scope.

(** ** Bytes and strings of the Go runtime *)

Module GoStrings.

Definition byte_in (lo hi c : ascii) : bool :=
  ((N_of_ascii lo <=? N_of_ascii c) && (N_of_ascii c <=? N_of_ascii hi))%N.

Definition is_lower (c : ascii) : bool := byte_in "a" "z" c.
Definition is_upper (c : ascii) : bool := byte_in "A" "Z" c.
Definition is_alpha (c : ascii) : bool := is_lower c || is_upper c.
Definition is_digit (c : ascii) : bool := byte_in "0" "9" c.

(** [len(s)], as an integer. *)
Definition len (s : string) : Z := Z.of_nat (String.length s).

(** [strings.HasPrefix(s, prefix)]. *)
Fixpoint HasPrefix (s prefix : string) {struct prefix} : bool :=
  match prefix, s with
  | EmptyString, _ => true
  | String p prefix', String c s' => Ascii.eqb c p && HasPrefix s' prefix'
  | String _ _, EmptyString => false
  end.

(** [s[n:]] and [s[:n]] for [n <= len(s)]. *)
Fixpoint drop_bytes (n : nat) (s : string) : string :=
  match n, s with
  | S n', String _ s' => drop_bytes n' s'
  | _, _ => s
  end.

Fixpoint take_bytes (n : nat) (s : string) : string :=
  match n, s with
  | S n', String c s' => String c (take_bytes n' s')
  | _, _ => EmptyString
  end.

(** [strings.HasSuffix(s, suffix)]. *)
Definition HasSuffix (s suffix : string) : bool :=
  (String.length suffix <=? String.length s)%nat
  && String.eqb (drop_bytes (String.length s - String.length suffix) s) suffix.

(** [strings.TrimSuffix(s, suffix)]. *)
Definition TrimSuffix (s suffix : string) : string :=
  if HasSuffix s suffix
  then take_bytes (String.length s - String.length suffix) s
  else s.

(** [strings.Contains(s, sep)] and [strings.Count(s, sep)] for a one-byte
    separator. *)
Fixpoint ContainsByte (s : string) (sep : ascii) : bool :=
  match s with
  | EmptyString => false
  | String c s' => Ascii.eqb c sep || ContainsByte s' sep
  end.

Fixpoint CountByte (s : string) (sep : ascii) : nat :=
  match s with
  | EmptyString => 0
  | String c s' => (if Ascii.eqb c sep then 1 else 0) + CountByte s' sep
  end.

(** [strings.Split(s, sep)] for a one-byte separator: the pieces between
    the separators, empty pieces included; one piece when [sep] is absent,
    also for the empty string. *)
Fixpoint Split (s : string) (sep : ascii) : list string :=
  match s with
  | EmptyString => [EmptyString]
  | String c s' =>
      if Ascii.eqb c sep then EmptyString :: Split s' sep
      else match Split s' sep with
           | f :: fs => String c f :: fs
           | [] => [String c EmptyString]
           end
  end.

(** [strings.Cut(s, sep)] for a one-byte separator: the text before and
    after the first [sep], and whether [sep] was found. *)
Fixpoint Cut (s : string) (sep : ascii) : string * string * bool :=
  match s with
  | EmptyString => (EmptyString, EmptyString, false)
  | String c s' =>
      if Ascii.eqb c sep then (EmptyString, s', true)
      else let '(before, after, found) := Cut s' sep in
           (String c before, after, found)
  end.

(** The split of [s] around the last [sep]: [s[:i]] and [s[i+1:]] for
    [i = strings.LastIndex(s, sep)], or [None] when [i < 0]. *)
Fixpoint CutLast (s : string) (sep : ascii) : option (string * string) :=
  match s with
  | EmptyString => None
  | String c s' =>
      match CutLast s' sep with
      | Some (before, after) => Some (String c before, after)
      | None => if Ascii.eqb c sep then Some (EmptyString, s') else None
      end
  end.

(** [strings.Index(s, sep)] for any separator, as the split [s[:i]],
    [s[i:]]. *)
Fixpoint IndexSplit (s sep : string) : option (string * string) :=
  if HasPrefix s sep then Some (EmptyString, s)
  else match s with
       | EmptyString => None
       | String c s' =>
           match IndexSplit s' sep with
           | Some (before, after) => Some (String c before, after)
           | None => None
           end
       end.

(** [strings.Replace(s, old, new, -1)] for one-byte [old] and [new]. *)
Fixpoint ReplaceByte (s : string) (old new : ascii) : string :=
  match s with
  | EmptyString => EmptyString
  | String c s' =>
      String (if Ascii.eqb c old then new else c) (ReplaceByte s' old new)
  end.

(** [strings.ToLower] on ASCII letters (bytes above 0x7f are left as they
    are, which is what [ToLower] does to the bytes of a scheme). *)
Definition lower_byte (c : ascii) : ascii :=
  if is_upper c then ascii_of_N (N_of_ascii c + 32) else c.

Fixpoint ToLower (s : string) : string :=
  match s with
  | EmptyString => EmptyString
  | String c s' => String (lower_byte c) (ToLower s')
  end.

(** [strings.Join(elems, sep)]. *)
Fixpoint Join (elems : list string) (sep : string) : string :=
  match elems with
  | [] => EmptyString
  | [e] => e
  | e :: rest => e +:+ sep +:+ Join rest sep
  end.

(** The last byte of a string and the string without it. *)
Fixpoint last_byte (s : string) : option ascii :=
  match s with
  | EmptyString => None
  | String c EmptyString => Some c
  | String _ s' => last_byte s'
  end.

Fixpoint drop_last (s : string) : string :=
  match s with
  | EmptyString => EmptyString
  | String _ EmptyString => EmptyString
  | String c s' => String c (drop_last s')
  end.

End GoStrings.
Import GoStrings.

(** ** [bufio.Scanner] with the default [ScanLines] split function *)

Module Bufio.

(** [bufio.MaxScanTokenSize]: a line and its terminator must fit in a
    buffer of this size. *)
Definition MaxScanTokenSize : Z := 65536.

(** [dropCR]: one trailing carriage return is removed. *)
Definition dropCR (data : string) : string :=
  match last_byte data with
  | Some c => if Ascii.eqb c "013" then drop_last data else data
  | None => data
  end.

(** The raw lines of the input: the text between newlines; a final
    newline opens no further line, and the empty input has no line. *)
Fixpoint drop_final_empty (ls : list string) : list string :=
  match ls with
  | [] => []
  | [EmptyString] => []
  | l :: rest => l :: drop_final_empty rest
  end.

Definition raw_lines (content : string) : list string :=
  drop_final_empty (Split content "010").

(** The tokens [Scan] delivers, and whether it stopped with
    [bufio.ErrTooLong]: a raw line of [MaxScanTokenSize] bytes or more
    does not fit, and scanning stops there. *)
Fixpoint scan_tokens (raw : list string) : list string * bool :=
  match raw with
  | [] => ([], false)
  | l :: rest =>
      if (len l <? MaxScanTokenSize)%Z
      then let '(toks, too_long) := scan_tokens rest in
           (dropCR l :: toks, too_long)
      else ([], true)
  end.

Definition Scan (content : string) : list string * bool :=
  scan_tokens (raw_lines content).

End Bufio.

(** ** Package [path] (and [path/filepath] on Unix, where they agree) *)

Module Path.

(** One step of [Clean] over the elements between slashes.  [out] holds
    the elements written so far, last one first.  An empty element and
    [.] write nothing; [..] removes the last written element when there is
    one that is not itself [..], is dropped at the root, and is written
    otherwise. *)
Definition clean_step (rooted : bool) (out : list string) (elem : string)
  : list string :=
  if String.eqb elem "" || String.eqb elem "." then out
  else if String.eqb elem ".." then
    match out with
    | top :: rest =>
        if String.eqb top ".." then (if rooted then out else elem :: out)
        else rest
    | [] => if rooted then out else [elem]
    end
  else elem :: out.

(** [path.Clean]. *)
Definition Clean (path : string) : string :=
  if String.eqb path "" then "."
  else
    let rooted := HasPrefix path "/" in
    let out := fold_left (clean_step rooted) (Split path "/") [] in
    let body := Join (rev out) "/" in
    if rooted then "/" +:+ body
    else if String.eqb body "" then "." else body.

(** [path.Join]: leading empty elements are ignored, the others are joined
    with slashes and the result is cleaned. *)
Fixpoint Join (elem : list string) : string :=
  match elem with
  | [] => ""
  | e :: rest =>
      if String.eqb e "" then Join rest
      else Clean (GoStrings.Join elem "/")
  end.

Fixpoint strip_trailing_slashes (path : string) : string :=
  match path with
  | EmptyString => EmptyString
  | String c rest =>
      match strip_trailing_slashes rest with
      | EmptyString => if Ascii.eqb c "/" then EmptyString else String c EmptyString
      | rest' => String c rest'
      end
  end.

(** [path.Base]. *)
Definition Base (path : string) : string :=
  if String.eqb path "" then "."
  else
    let path := strip_trailing_slashes path in
    let path := match CutLast path "/" with
                | Some (_, last) => last
                | None => path
                end in
    if String.eqb path "" then "/" else path.

(** [path.Ext]: the suffix starting at the last dot of the last element,
    empty when that element has no dot. *)
Fixpoint Ext (path : string) : string :=
  match path with
  | EmptyString => EmptyString
  | String c rest =>
      if ContainsByte rest "/" then Ext rest
      else match Ext rest with
           | EmptyString => if Ascii.eqb c "." then path else EmptyString
           | ext => ext
           end
  end.

(** [filepath.IsAbs] on Unix. *)
Definition IsAbs (path : string) : bool := HasPrefix path "/".

(** [filepath.Dir] on Unix: everything up to the last slash, cleaned. *)
Definition Dir (path : string) : string :=
  match CutLast path "/" with
  | Some (before, _) => Clean (before +:+ "/")
  | None => Clean ""
  end.

End Path.

(** ** Package [net/url]: [ParseRequestURI]

    The parser of Go's [net/url] as called through [ParseRequestURI], that
    is [parse(rawURL, viaRequest = true)]: no fragment is split off, and a
    string is accepted only as an absolute URI or as an absolute path.
    The model follows the parser of Go 1.12 to 1.20 (control bytes are
    refused; a host is checked for its bytes, escapes and port).  [RawPath]
    (an encoding hint) is not modelled; the program reads only whether a URL
    was produced and its [Path]. *)

Module URL.

Record Userinfo := mkUserinfo {
  username : string;
  password : string;
  passwordSet : bool
}.

Record t := mkURL {
  Scheme : string;
  Opaque : string;
  User : option Userinfo;
  Host : string;
  Path : string;
  ForceQuery : bool;
  RawQuery : string
}.

Inductive encoding := encodePath | encodeUserPassword | encodeHost | encodeZone.

Definition is_host_mode (mode : encoding) : bool :=
  match mode with encodeHost | encodeZone => true | _ => false end.

Definition ishex (c : ascii) : bool :=
  is_digit c || byte_in "a" "f" c || byte_in "A" "F" c.

Definition unhex (c : ascii) : N :=
  if is_digit c then N_of_ascii c - N_of_ascii "0"
  else if byte_in "a" "f" c then N_of_ascii c - N_of_ascii "a" + 10
  else if byte_in "A" "F" c then N_of_ascii c - N_of_ascii "A" + 10
  else 0.

(** [shouldEscape(c, encodeHost)]: everything but the unreserved bytes and
    the sub-delimiters, colon, brackets, angle brackets and double quote
    that a host may hold. *)
Definition shouldEscapeHost (c : ascii) : bool :=
  if is_alpha c || is_digit c then false
  else negb (existsb (Ascii.eqb c)
               ["!"; "$"; "&"; "'"; "("; ")"; "*"; "+"; ","; ";"; "="; ":";
                "["; "]"; "<"; ">"; "034"; "-"; "_"; "."; "~"]%char).

(** [unescape(s, mode)] for the modes the parser uses: percent escapes
    must be two hex digits; a host may escape only non-ASCII bytes (and
    [%25]); a zone may escape only bytes a host could hold (and space);
    a host or zone may hold no ASCII byte that [shouldEscape] rejects. *)
Fixpoint unescape (s : string) (mode : encoding) : option string :=
  match s with
  | EmptyString => Some EmptyString
  | String c rest =>
      if Ascii.eqb c "%" then
        match rest with
        | String h1 (String h2 rest') =>
            let v := ascii_of_N (unhex h1 * 16 + unhex h2) in
            let is25 := Ascii.eqb h1 "2" && Ascii.eqb h2 "5" in
            if negb (ishex h1 && ishex h2) then None
            else if match mode with
                    | encodeHost => (unhex h1 <? 8)%N && negb is25
                    | encodeZone =>
                        negb is25 && negb (Ascii.eqb v " ") && shouldEscapeHost v
                    | _ => false
                    end
            then None
            else String v <$> unescape rest' mode
        | _ => None
        end
      else if is_host_mode mode && (N_of_ascii c <? 128)%N
              && negb (Ascii.eqb c "+") && shouldEscapeHost c
      then None
      else String c <$> unescape rest mode
  end.

Fixpoint all_bytes (p : ascii -> bool) (s : string) : bool :=
  match s with
  | EmptyString => true
  | String c rest => p c && all_bytes p rest
  end.

Definition validOptionalPort (port : string) : bool :=
  match port with
  | EmptyString => true
  | String c digits => Ascii.eqb c ":" && all_bytes is_digit digits
  end.

Definition validUserinfoByte (c : ascii) : bool :=
  is_alpha c || is_digit c
  || existsb (Ascii.eqb c)
       ["-"; "."; "_"; ":"; "~"; "!"; "$"; "&"; "'"; "("; ")"; "*"; "+";
        ","; ";"; "="; "%"; "@"]%char.

Definition validUserinfo (s : string) : bool := all_bytes validUserinfoByte s.

Definition parseHost (host : string) : option string :=
  if HasPrefix host "[" then
    match CutLast host "]" with
    | None => None
    | Some (literal, colonPort) =>
        if negb (validOptionalPort colonPort) then None
        else match IndexSplit literal "%25" with
             | Some (address, zone) =>
                 host1 ← unescape address encodeHost;
                 host2 ← unescape zone encodeZone;
                 host3 ← unescape (String "]" colonPort) encodeHost;
                 Some (host1 +:+ host2 +:+ host3)
             | None => unescape host encodeHost
             end
    end
  else
    match CutLast host ":" with
    | Some (_, port) =>
        if validOptionalPort (String ":" port) then unescape host encodeHost
        else None
    | None => unescape host encodeHost
    end.

Definition parseAuthority (authority : string)
  : option (option Userinfo * string) :=
  match CutLast authority "@" with
  | None => host ← parseHost authority; Some (None, host)
  | Some (userinfo, hostport) =>
      host ← parseHost hostport;
      if negb (validUserinfo userinfo) then None
      else if negb (ContainsByte userinfo ":") then
        name ← unescape userinfo encodeUserPassword;
        Some (Some (mkUserinfo name "" false), host)
      else
        let '(name, pass, _) := Cut userinfo ":" in
        name ← unescape name encodeUserPassword;
        pass ← unescape pass encodeUserPassword;
        Some (Some (mkUserinfo name pass true), host)
  end.

(** [getScheme]: letters, then letters, digits, [+], [-] and [.], up to a
    colon.  A colon in first position is an error; any other byte, or a
    digit or sign in first position, means there is no scheme. *)
Inductive scheme_scan :=
| MissingScheme
| NoScheme
| FoundScheme (scheme rest : string).

Fixpoint scan_scheme (first : bool) (s : string) : scheme_scan :=
  match s with
  | EmptyString => NoScheme
  | String c s' =>
      let continue :=
        match scan_scheme false s' with
        | FoundScheme scheme rest => FoundScheme (String c scheme) rest
        | r => r
        end in
      if is_alpha c then continue
      else if is_digit c || existsb (Ascii.eqb c) ["+"; "-"; "."]%char then
        if first then NoScheme else continue
      else if Ascii.eqb c ":" then
        if first then MissingScheme else FoundScheme EmptyString s'
      else NoScheme
  end.

Definition getScheme (rawURL : string) : option (string * string) :=
  match scan_scheme true rawURL with
  | MissingScheme => None
  | NoScheme => Some (EmptyString, rawURL)
  | FoundScheme scheme rest => Some (scheme, rest)
  end.

Definition stringContainsCTLByte (s : string) : bool :=
  negb (all_bytes (fun b => negb ((N_of_ascii b <? 32)%N || Ascii.eqb b "127")) s).

Definition ParseRequestURI (rawURL : string) : option t :=
  if stringContainsCTLByte rawURL then None
  else if String.eqb rawURL "" then None
  else if String.eqb rawURL "*" then Some (mkURL "" "" None "" "*" false "")
  else
    '(scheme, rest) ← getScheme rawURL;
    let scheme := ToLower scheme in
    let '(rest, forceQuery, rawQuery) :=
      if HasSuffix rest "?" && (CountByte rest "?" =? 1)%nat
      then (drop_last rest, true, EmptyString)
      else let '(before, after, _) := Cut rest "?" in (before, false, after) in
    if negb (HasPrefix rest "/") then
      if negb (String.eqb scheme "")
      then Some (mkURL scheme rest None "" "" forceQuery rawQuery)
      else None
    else if negb (String.eqb scheme "") && HasPrefix rest "//" then
      let '(authority, after, found) := Cut (drop_bytes 2 rest) "/" in
      let rest := if found then String "/" after else EmptyString in
      '(user, host) ← parseAuthority authority;
      path ← unescape rest encodePath;
      Some (mkURL scheme "" user host path forceQuery rawQuery)
    else
      path ← unescape rest encodePath;
      Some (mkURL scheme "" None "" path forceQuery rawQuery).

End URL.

(** ** Data model *)

Record Library := mkLibrary {
  Configuration : string;
  UrlOrPath : string;
  Version : string;
  RelativePath : string;
  Name : string;
  Modified : bool;
  URL : option URL.t
}.

Record Dependencies := mkDependencies { Libraries : list Library }.

Definition NewEmptyDependencies : Dependencies := mkDependencies [].
Definition NewDependencies (libraries : list Library) : Dependencies :=
  mkDependencies libraries.

Record DependencyInfo := mkDependencyInfo {
  InfoName : string;
  InfoPath : string;
  InfoRelativePath : string
}.

(** The error values the program returns.  [ErrUnableToFind] is the error
    built in [Refresh] ("Unable to find dependency: ..."); [ErrExternal]
    stands for an error value handed back by the operating system or by a
    collaborator, which the program passes on unchanged. *)
Inductive error :=
| ErrOpen (path : string)
| ErrOpenFile (path : string)
| ErrTooLong
| ErrUnableToFind (lib : Library)
| ErrExternal (message : string).

(** ** The manifest store

    The files [Read] and [Write] work on: their contents by path, and which
    paths [os.OpenFile] can open for writing.  The store holds regular files
    whose reads succeed, so the scanner's only error is that of a line too
    long; and distinct paths name distinct files. *)

Record Files := mkFiles {
  contents : gmap string string;
  writable : string -> bool
}.

Definition newline : string := String "010" EmptyString.

(** ** [Dependencies.Write] *)

(** The line written for one library (the body of the loop). *)
Definition manifest_line (lib : Library) : string :=
  let version := if String.eqb (Version lib) "" then "*" else Version lib in
  if negb (String.eqb (RelativePath lib) "/")
  then UrlOrPath lib +:+ " " +:+ version +:+ " " +:+ RelativePath lib +:+ newline
  else UrlOrPath lib +:+ " " +:+ version +:+ newline.

Definition manifest_text (libs : list Library) : string :=
  fold_right String.append EmptyString (map manifest_line libs).

Definition Write (d : Dependencies) (path : string) (fs : Files)
  : Files * option error :=
  if writable fs path
  then (mkFiles (<[path := manifest_text (Libraries d)]> (contents fs)) (writable fs),
        None)
  else (fs, Some (ErrOpenFile path)).

(** ** [Dependencies.Read] *)

(** What a call of [Read] ends in: it returns (with the libraries appended
    so far and the error value), or [log.Fatalf] ends the process with the
    version mismatch of the named source. *)
Inductive read_outcome :=
| Returned (d : Dependencies) (err : option error)
| Fatal (urlOrPath : string).

(** The library built from one scanned line (the loop body up to the
    append). *)
Definition read_entry (fn line : string) : Library :=
  let fields := Split line " " in
  let urlOrPath := default "" (fields !! 0%nat) in
  let version := default "" (fields !! 1%nat) in
  let relativePath := default "/" (fields !! 2%nat) in
  let url := URL.ParseRequestURI urlOrPath in
  let name :=
    match url with
    | Some u => let name := Path.Base (URL.Path u) in
                TrimSuffix name (Path.Ext name)
    | None => Path.Base urlOrPath
    end in
  let name :=
    if negb (String.eqb relativePath "/")
    then name +:+ ReplaceByte relativePath "/" "_"
    else name in
  mkLibrary fn urlOrPath version relativePath name false url.

(** The scanning loop: [libs] is [d.Libraries], [versionsByPath] the map
    local to the call.  A missing key reads as the empty string. *)
Fixpoint read_lines (fn : string) (lines : list string) (libs : list Library)
    (versionsByPath : gmap string string) : list Library + string :=
  match lines with
  | [] => inl libs
  | line :: rest =>
      let lib := read_entry fn line in
      let libs := (libs ++ [lib])%list in
      let seen := default "" (versionsByPath !! UrlOrPath lib) in
      if negb (String.eqb seen "") && negb (String.eqb seen (Version lib))
      then inr (UrlOrPath lib)
      else read_lines fn rest libs (<[UrlOrPath lib := Version lib]> versionsByPath)
  end.

Definition Read (fs : Files) (d : Dependencies) (fn : string) : read_outcome :=
  match contents fs !! fn with
  | None => Returned d (Some (ErrOpen fn))
  | Some content =>
      let '(lines, too_long) := Bufio.Scan content in
      match read_lines fn lines (Libraries d) ∅ with
      | inr urlOrPath => Fatal urlOrPath
      | inl libs =>
          Returned (mkDependencies libs) (if too_long then Some ErrTooLong else None)
      end
  end.

(** ** [Dependencies.SaveModified] *)

(** The first loop: the libraries grouped by manifest, in list order. *)
Definition byConfiguration (libs : list Library) : gmap string (list Library) :=
  fold_left
    (fun m lib =>
       <[Configuration lib := (default [] (m !! Configuration lib) ++ [lib])%list]> m)
    libs ∅.

(** The body of the second loop. *)
Definition save_group (force : bool) (fs : Files) (group : string * list Library)
  : Files * option error :=
  let '(configuration, libs) := group in
  let modified := force || existsb Modified libs in
  if modified then Write (NewDependencies libs) configuration fs
  else (fs, None).

Fixpoint save_groups (force : bool) (groups : list (string * list Library))
    (fs : Files) : Files * option error :=
  match groups with
  | [] => (fs, None)
  | group :: rest =>
      match save_group force fs group with
      | (fs', Some err) => (fs', Some err)
      | (fs', None) => save_groups force rest fs'
      end
  end.

(** [range] over a Go map visits every key once, in an order the language
    leaves open: a run of [SaveModified] is the second loop over any
    enumeration of the groups. *)
Definition SaveModified (d : Dependencies) (force : bool) (fs : Files)
    (result : Files * option error) : Prop :=
  ∃ order, order ≡ₚ map_to_list (byConfiguration (Libraries d))
           ∧ save_groups force order fs = result.

(** ** [Dependencies.Refresh]

    [Refresh] talks to the operating system and to two collaborators that
    are not part of this file's source: the repositories ([CloneDependency],
    [GetRepositoryHash], [GetWorkingCopyPathAndName]) and the template
    writer ([TemplateData.Write], which needs the executable's directory and
    a template file).  They are operations on an abstract world; those that
    can change it return the new world.  Log lines are not modelled. *)

Record FileInfo := mkFileInfo { IsRegular : bool; IsDir : bool }.

(** The result of an operation that can fail with an error value of its
    own. *)
Inductive outcome (A : Type) :=
| Done (a : A)
| Failed (message : string).
Arguments Done {A} a.
Arguments Failed {A} message.

Inductive result (A : Type) :=
| Ok (a : A)
| Err (e : error).
Arguments Ok {A} a.
Arguments Err {A} e.

Section Resolution.

Context {World : Type}.

(** [os.Stat]: [None] when it returns an error. *)
Variable Stat : World -> string -> option FileInfo.
(** [os.Getwd]. *)
Variable Getwd : World -> outcome string.
(** [os.MkdirAll(path, 0755)]. *)
Variable MkdirAll : World -> string -> World * option string.
(** [repos.CloneDependency(lib, directory, useHead)]. *)
Variable CloneDependency :
  World -> Library -> string -> bool -> World * outcome string.
(** [repos.GetRepositoryHash(path)]. *)
Variable GetRepositoryHash : World -> string -> World * outcome string.
(** [repos.GetWorkingCopyPathAndName(lib, directory)]: the caller keeps
    the path only and discards the name and the error. *)
Variable GetWorkingCopyPathAndName : World -> Library -> string -> World * string.
(** [TemplateData.Write(project)]. *)
Variable WriteTemplate :
  World -> string -> list DependencyInfo -> World * option string.

(** State and error passing. *)
Definition M (A : Type) : Type := World -> World * result A.

Definition ret {A} (a : A) : M A := fun w => (w, Ok a).
Definition fail {A} (e : error) : M A := fun w => (w, Err e).
Definition bind {A B} (m : M A) (k : A -> M B) : M B :=
  fun w => match m w with
           | (w', Ok a) => k a w'
           | (w', Err e) => (w', Err e)
           end.
Definition lift_outcome {A} (m : World -> World * outcome A) : M A :=
  fun w => match m w with
           | (w', Done a) => (w', Ok a)
           | (w', Failed msg) => (w', Err (ErrExternal msg))
           end.
Definition read_world {A} (f : World -> outcome A) : M A :=
  lift_outcome (fun w => (w, f w)).

Notation "x <~ m ; k" := (bind m (fun x => k))
  (at level 20, m at level 100, k at level 200, only parsing).

(** [filepath.Abs] on Unix. *)
Definition Abs (path : string) : M string :=
  if Path.IsAbs path then ret (Path.Clean path)
  else wd <~ read_world Getwd ; ret (Path.Join [wd; path]).

Definition checkForLocalOverride (lib : Library) : M string :=
  let expected := Path.Join ["../"; Name lib] in
  fun w =>
    match Stat w expected with
    | Some s => if negb (IsRegular s) then Abs expected w else ret "" w
    | None => ret "" w
    end.

Definition touchLocalOverrideDummy (path : string) : M unit :=
  fun w => match MkdirAll w path with
           | (w', None) => (w', Ok tt)
           | (w', Some msg) => (w', Err (ErrExternal msg))
           end.

(** The first part of the loop body: the override, when allowed. *)
Definition override_step (directory : string) (allowLocal : bool)
    (lib : Library) : M string :=
  if allowLocal then
    overridePath <~ checkForLocalOverride lib ;
    if negb (String.eqb overridePath "") then
      match URL lib with
      | Some _ =>
          dummyPath <~ (fun w => let '(w', p) :=
                                   GetWorkingCopyPathAndName w lib directory in
                                 (w', Ok p)) ;
          _ <~ touchLocalOverrideDummy dummyPath ;
          ret overridePath
      | None => ret overridePath
      end
    else ret ""
  else ret "".

(** The second part: clone a URL, or look at a local directory.  The
    local branch asks for the repository hash of an existing directory
    (for the log) and leaves [dependencyPath] as it was. *)
Definition fetch_step (directory : string) (useHead : bool) (lib : Library)
    (dependencyPath : string) : M string :=
  if String.eqb dependencyPath "" then
    match URL lib with
    | Some _ =>
        clonePath <~ lift_outcome
                       (fun w => CloneDependency w lib directory useHead) ;
        ret clonePath
    | None =>
        fun w =>
          match Stat w (UrlOrPath lib) with
          | Some s =>
              if IsDir s
              then let '(w', _) := GetRepositoryHash w (UrlOrPath lib) in
                   (w', Ok dependencyPath)
              else (w, Ok dependencyPath)
          | None => (w, Ok dependencyPath)
          end
    end
  else ret dependencyPath.

(** The loop body for one library. *)
Definition resolve_library (directory : string) (useHead allowLocal : bool)
    (lib : Library) : M DependencyInfo :=
  dependencyPath <~ override_step directory allowLocal lib ;
  dependencyPath <~ fetch_step directory useHead lib dependencyPath ;
  if String.eqb dependencyPath "" then fail (ErrUnableToFind lib)
  else
    dependencyPath <~ Abs dependencyPath ;
    ret (mkDependencyInfo (Name lib) dependencyPath (RelativePath lib)).

(** The loop: the resolved entries so far and the project directory. *)
Fixpoint resolve_all (directory : string) (useHead allowLocal : bool)
    (libs : list Library) (templateDatas : list DependencyInfo)
    (project : string) : M (list DependencyInfo * string) :=
  match libs with
  | [] => ret (templateDatas, project)
  | lib :: rest =>
      info <~ resolve_library directory useHead allowLocal lib ;
      resolve_all directory useHead allowLocal rest
        (templateDatas ++ [info])%list (Path.Dir (Configuration lib))
  end.

Definition Refresh (d : Dependencies) (directory : string)
    (useHead allowLocal : bool) (w : World) : World * option error :=
  match resolve_all directory useHead allowLocal (Libraries d) [] "./" w with
  | (w', Err e) => (w', Some e)
  | (w', Ok (templateDatas, project)) =>
      match WriteTemplate w' project templateDatas with
      | (w'', None) => (w'', None)
      | (w'', Some msg) => (w'', Some (ErrExternal msg))
      end
  end.

(** No override applies: overrides are not allowed, or the check finds
    none. *)
Definition no_override (allowLocal : bool) (lib : Library) (w : World) : Prop :=
  allowLocal = false ∨ checkForLocalOverride lib w = (w, Ok "").

(** The path of a local source is missing or not a directory. *)
Definition not_a_directory (w : World) (path : string) : Prop :=
  match Stat w path with
  | Some s => IsDir s = false
  | None => True
  end.

End Resolution.

(** ** Vocabulary of the statements and sample inputs *)

Definition tab : ascii := "009"%char.

Definition foo_url : string := "https://example.com/libs/foo.git".

Definition blank_entry (fn : string) : Library :=
  mkLibrary fn "" "" "/" "." false None.

Definition blank_line_files : Files :=
  mkFiles {[ "deps.txt" := "lib/a" +:+ newline +:+ newline +:+ "lib/b" +:+ newline ]}
          (fun _ => true).

Definition blank_line_result : Dependencies :=
  mkDependencies
    [mkLibrary "deps.txt" "lib/a" "" "/" "a" false None;
     mkLibrary "deps.txt" "" "" "/" "." false None;
     mkLibrary "deps.txt" "lib/b" "" "/" "b" false None].

(** Two entries of a list conflict when they name the same source and the
    earlier one has a non-empty version that differs from the later one's. *)
Definition conflicting_pair (entries : list Library) : Prop :=
  ∃ i j li lj,
    (i < j)%nat ∧ entries !! i = Some li ∧ entries !! j = Some lj
    ∧ UrlOrPath li = UrlOrPath lj
    ∧ Version li ≠ "" ∧ Version li ≠ Version lj.

(** An entry clashes with the map when the version recorded for its source
    is non-empty and differs from its own. *)
Definition clashes (m : gmap string string) (entries : list Library) : Prop :=
  ∃ j lj, entries !! j = Some lj
          ∧ default "" (m !! UrlOrPath lj) ≠ ""
          ∧ default "" (m !! UrlOrPath lj) ≠ Version lj.

Definition pinned_then_unpinned : Files :=
  mkFiles {[ "deps.txt" := "https://x/a.git 1.0" +:+ newline
                           +:+ "https://x/a.git" +:+ newline ]}
          (fun _ => true).

Definition two_manifests : Files :=
  mkFiles {[ "a/deps.txt" := "https://x/a.git 1.0" +:+ newline;
             "b/deps.txt" := "https://x/a.git 2.0" +:+ newline ]}
          (fun _ => true).

Definition two_manifests_first : Dependencies :=
  mkDependencies [read_entry "a/deps.txt" "https://x/a.git 1.0"].

Definition two_manifests_both : Dependencies :=
  mkDependencies [read_entry "a/deps.txt" "https://x/a.git 1.0";
                  read_entry "b/deps.txt" "https://x/a.git 2.0"].

(** The bytes of a path that [ParseRequestURI] takes as they are: no
    control byte, no percent sign, no question mark. *)
Definition plain_byte (c : ascii) : bool :=
  negb ((N_of_ascii c <? 32)%N || Ascii.eqb c "127")
  && negb (Ascii.eqb c "%") && negb (Ascii.eqb c "?").

(** ** A small world to run the resolution in

    Directories are a list of paths; the clone works for a source with a
    host when the network is up and creates its working copy; no path has
    a repository hash. *)

Record Disk := mkDisk { directories : list string; online : bool }.

Definition disk_Stat (w : Disk) (path : string) : option FileInfo :=
  if existsb (String.eqb path) (directories w)
  then Some (mkFileInfo false true) else None.

Definition disk_Getwd (w : Disk) : outcome string := Done "/work/project".

Definition disk_MkdirAll (w : Disk) (path : string) : Disk * option string :=
  (mkDisk (path :: directories w) (online w), None).

Definition disk_Clone (w : Disk) (lib : Library) (directory : string)
    (useHead : bool) : Disk * outcome string :=
  match URL lib with
  | Some u =>
      if online w && negb (String.eqb (URL.Host u) "")
      then let path := directory +:+ "/" +:+ Name lib in
           (mkDisk (path :: directories w) (online w), Done path)
      else (w, Failed "clone failed")
  | None => (w, Failed "no url")
  end.

Definition disk_Hash (w : Disk) (path : string) : Disk * outcome string :=
  (w, Failed "not a repository").

Definition disk_WorkingCopy (w : Disk) (lib : Library) (directory : string)
  : Disk * string :=
  (w, directory +:+ "/" +:+ Name lib).

Definition disk_WriteTemplate (w : Disk) (project : string)
    (datas : list DependencyInfo) : Disk * option string :=
  (w, None).

Definition disk_resolve :=
  resolve_library disk_Stat disk_Getwd disk_MkdirAll disk_Clone disk_Hash
    disk_WorkingCopy.

Definition disk_Refresh :=
  Refresh disk_Stat disk_Getwd disk_MkdirAll disk_Clone disk_Hash
    disk_WorkingCopy disk_WriteTemplate.

(** A machine with the directories [/local/b] and [local/b]. *)
Definition local_disk (online : bool) : Disk :=
  mkDisk ["/local/b"; "local/b"] online.


Definition lib_a : Library := read_entry "deps.txt" "https://x/a.git 1.0".
Definition lib_relative_b : Library := read_entry "deps.txt" "local/b".
Definition lib_missing : Library := read_entry "deps.txt" "local/missing".

(** The libraries of a manifest, in list order, and when the manifest is
    due for rewriting: it has a library, and the run is forced or one of
    its libraries is modified. *)
Definition group_of (d : Dependencies) (configuration : string) : list Library :=
  filter (fun lib => Configuration lib = configuration) (Libraries d).

Definition due (d : Dependencies) (force : bool) (configuration : string) : Prop :=
  group_of d configuration ≠ []
  ∧ (force = true ∨ ∃ lib, lib ∈ group_of d configuration ∧ Modified lib = true).

Definition two_group_deps : Dependencies :=
  mkDependencies
    [mkLibrary "a/deps.txt" "https://x/a.git" "1.0" "/" "a" false None;
     mkLibrary "b/deps.txt" "https://x/b.git" "" "/" "b" false None;
     mkLibrary "a/deps.txt" "lib/c" "2.0" "/sub" "c_sub" true None].

Definition two_group_files : Files :=
  mkFiles {[ "a/deps.txt" := "old a"; "b/deps.txt" := "old b" ]} (fun _ => true).

Definition two_group_run (force : bool) : Files * option error :=
  save_groups force (map_to_list (byConfiguration (Libraries two_group_deps)))
    two_group_files.

(** The library as a second parse sees it: an empty version has become
    the star that [Write] put in its place. *)
Definition normalize_version (lib : Library) : Library :=
  mkLibrary (Configuration lib) (UrlOrPath lib)
    (if String.eqb (Version lib) "" then "*" else Version lib)
    (RelativePath lib) (Name lib) (Modified lib) (URL lib).

(** The line [Write] emits for a library, without its newline. *)
Definition written_line (lib : Library) : string :=
  let version := if String.eqb (Version lib) "" then "*" else Version lib in
  if negb (String.eqb (RelativePath lib) "/")
  then UrlOrPath lib +:+ " " +:+ version +:+ " " +:+ RelativePath lib
  else UrlOrPath lib +:+ " " +:+ version.

Definition carriage_return : ascii := "013"%char.

(** The library built from the three fields of a line (the loop body of
    [Read] after the fields are taken). *)
Definition entry_of_fields (fn urlOrPath version relativePath : string) : Library :=
  let url := URL.ParseRequestURI urlOrPath in
  let name :=
    match url with
    | Some u => let name := Path.Base (URL.Path u) in
                TrimSuffix name (Path.Ext name)
    | None => Path.Base urlOrPath
    end in
  let name :=
    if negb (String.eqb relativePath "/")
    then name +:+ ReplaceByte relativePath "/" "_"
    else name in
  mkLibrary fn urlOrPath version relativePath name false url.

Definition sample_manifest : Files :=
  mkFiles {[ "deps.txt" := "https://x/a.git 1.0" +:+ newline
                           +:+ "local/b" +:+ newline
                           +:+ "lib/c 2 /sub" +:+ newline ]}
          (fun _ => true).

Definition sample_libraries : Dependencies :=
  mkDependencies
    [read_entry "deps.txt" "https://x/a.git 1.0";
     read_entry "deps.txt" "local/b";
     read_entry "deps.txt" "lib/c 2 /sub"].

Definition unpinned_then_pinned : Files :=
  mkFiles {[ "deps.txt" := "lib/a" +:+ newline +:+ "lib/a 1.0" +:+ newline ]}
          (fun _ => true).

Definition unpinned_then_pinned_libraries : Dependencies :=
  mkDependencies [read_entry "deps.txt" "lib/a"; read_entry "deps.txt" "lib/a 1.0"].

(** ** Further vocabulary: fields, line endings, resolved entries *)

(** The three fields of a library hold neither of the two bytes. *)
Definition fields_without (lib : Library) (b : ascii) : Prop :=
  ContainsByte (UrlOrPath lib) b = false
  ∧ ContainsByte (Version lib) b = false
  ∧ ContainsByte (RelativePath lib) b = false.

(** The text of lines that all end in [eol]. *)
Definition join_lines (eol : string) (lines : list string) : string :=
  fold_right (fun l acc => l +:+ eol +:+ acc) "" lines.

Definition crlf : string := String "013" newline.

(** A line fits the scanner with [extra] more bytes before its newline. *)
Definition fits (extra : Z) (l : string) : Prop :=
  (len l + extra < Bufio.MaxScanTokenSize)%Z.

(** A line of [n] bytes [c]. *)
Fixpoint repeat_byte (n : nat) (c : ascii) : string :=
  match n with
  | O => EmptyString
  | S n' => String c (repeat_byte n' c)
  end.

Definition long_line : string := repeat_byte (Z.to_nat Bufio.MaxScanTokenSize) "a".

Definition long_line_manifest : Files :=
  mkFiles {[ "deps.txt" := "lib/a" +:+ newline +:+ long_line +:+ newline
                           +:+ "lib/b" +:+ newline ]}
          (fun _ => true).

Definition crlf_lines : list string := ["https://x/a.git 1.0"; "lib/c 2 /sub"].

Definition lf_manifest : Files :=
  mkFiles {[ "deps.txt" := join_lines newline crlf_lines ]} (fun _ => true).

Definition crlf_manifest : Files :=
  mkFiles {[ "deps.txt" := join_lines crlf crlf_lines ]} (fun _ => true).

Definition unterminated_manifest : Files :=
  mkFiles {[ "deps.txt" := "https://x/a.git 1.0" +:+ newline +:+ "local/b" ]}
          (fun _ => true).

Definition terminated_manifest : Files :=
  mkFiles {[ "deps.txt" := ("https://x/a.git 1.0" +:+ newline +:+ "local/b")
                           +:+ newline ]}
          (fun _ => true).

(** The version as [Write] puts it on a line. *)
Definition written_version (lib : Library) : string :=
  if String.eqb (Version lib) "" then "*" else Version lib.

(** The library a later [Read] of [path] builds from the line written for
    [lib]: same source and mount path, the written version, the name and URL
    computed anew, not modified. *)
Definition reread (path : string) (lib : Library) : Library :=
  entry_of_fields path (UrlOrPath lib) (written_version lib) (RelativePath lib).

Definition edited_libraries : Dependencies :=
  mkDependencies
    [mkLibrary "old.txt" "https://x/a.git" "" "/" "renamed" true None;
     mkLibrary "old.txt" "lib/c" "2.0" "/sub" "" true None].

Definition unwritable_files : Files :=
  mkFiles {[ "a/deps.txt" := "old a"; "b/deps.txt" := "old b" ]}
          (fun f => negb (String.eqb f "a/deps.txt")).

(** The path [checkForLocalOverride] looks at for a library. *)
Definition override_location (lib : Library) : string :=
  Path.Join ["../"; Name lib].

(** The end of the loop body of [Refresh] once a path is established: the
    path is made absolute and recorded with the name and the mount path. *)
Definition record_path {World : Type} (Getwd : World -> outcome string)
    (lib : Library) (dependencyPath : string) : M DependencyInfo :=
  bind (Abs Getwd dependencyPath)
    (fun dependencyPath =>
       ret (mkDependencyInfo (Name lib) dependencyPath (RelativePath lib))).

(** A machine with a sibling directory [../a] next to the project. *)
Definition sibling_disk : Disk := mkDisk ["../a"; ".."] true.

(** The world after [lib_a] was cloned into [cache]. *)
Definition cloned_disk : Disk := mkDisk ["cache/a"; "/local/b"; "local/b"] true.

Definition resolved_a : DependencyInfo :=
  mkDependencyInfo "a" "/work/project/cache/a" "/".

(** The path whose last element names a library: the path of its URL, or
    its source when it has no URL. *)
Definition name_path (lib : Library) : string :=
  match URL lib with
  | Some u => URL.Path u
  | None => UrlOrPath lib
  end.

(** The bytes of a plain host name: letters, digits, dot and hyphen. *)
Definition host_byte (c : ascii) : bool :=
  is_alpha c || is_digit c || Ascii.eqb c "." || Ascii.eqb c "-".

(** An absolute URI with a scheme, a host and an absolute path. *)
Definition absolute_uri (scheme host path : string) : string :=
  scheme +:+ "://" +:+ host +:+ String "/" path.

(** A clone that always works and puts the copy under [directory]. *)
Definition disk_CloneAny (w : Disk) (lib : Library) (directory : string)
    (useHead : bool) : Disk * outcome string :=
  let path := directory +:+ "/" +:+ Name lib in
  (mkDisk (path :: directories w) (online w), Done path).

(** * Properties *)

(** ** Sample evaluations of the library models *)

Example split_two_spaces : Split "a  1.0" " " = ["a"; ""; "1.0"].
Proof. reflexivity. Qed.

Example scan_trailing_newline :
  Bufio.Scan ("a 1" +:+ String "013" (String "010" ("" +:+ String "010" "b")))
  = (["a 1"; ""; "b"], false).
Proof. vm_compute. reflexivity. Qed.

Example clean_samples :
  map Path.Clean ["../foo"; "..//"; "a/../../b/./c"; "/../a//b/"; "/"; "x/.."]
  = ["../foo"; ".."; "../b/c"; "/a/b"; "/"; "."].
Proof. vm_compute. reflexivity. Qed.

Example base_ext_samples :
  (map Path.Base ["/libs/foo.git"; "/local/b"; ""; "///"; "a/b/"],
   map Path.Ext ["foo.git"; "b"; "a.b/c"; "x.tar.gz"; "."])
  = (["foo.git"; "b"; "."; "/"; "b"], [".git"; ""; ""; ".gz"; "."]).
Proof. vm_compute. reflexivity. Qed.

Example dir_samples :
  map Path.Dir ["proj/deps.txt"; "deps.txt"; "/deps.txt"; "a/b/../c.txt"]
  = ["proj"; "."; "/"; "a"].
Proof. vm_compute. reflexivity. Qed.

Example url_samples :
  map (fun s => URL.Path <$> URL.ParseRequestURI s)
      ["https://example.com/libs/foo.git"; "/local/b"; "local/b"; "../b";
       "git@github.com:x/y.git"; "http://[::1"; "https://x/a%zz"; ""]
  = [Some "/libs/foo.git"; Some "/local/b"; None; None; None; None; None; None].
Proof. vm_compute. reflexivity. Qed.

Example read_entry_sample :
  read_entry "deps.txt" "https://example.com/libs/foo.git 1.0 /sub"
  = mkLibrary "deps.txt" "https://example.com/libs/foo.git" "1.0" "/sub" "foo_sub"
      false (Some (URL.mkURL "https" "" None "example.com" "/libs/foo.git" false "")).
Proof. vm_compute. reflexivity. Qed.

(** ** Strings: splitting and joining *)

Lemma append_cons (c : ascii) (s t : string) :
  String c s +:+ t = String c (s +:+ t).
Proof. reflexivity. Qed.

Lemma append_nil_l (t : string) : "" +:+ t = t.
Proof. reflexivity. Qed.

Lemma append_nil_r (s : string) : s +:+ "" = s.
Proof. induction s as [|c s IH]; [done|]. by rewrite append_cons, IH. Qed.

Lemma append_assoc (s t u : string) : (s +:+ t) +:+ u = s +:+ t +:+ u.
Proof. induction s as [|c s IH]; [done|]. by rewrite !append_cons, IH. Qed.

Lemma Split_nonempty (s : string) (sep : ascii) : Split s sep ≠ [].
Proof.
  destruct s as [|c s]; simpl; [done|].
  destruct (Ascii.eqb c sep); [done|]. by destruct (Split s sep).
Qed.

Lemma Split_cons_other (c sep : ascii) (s : string) :
  Ascii.eqb c sep = false ->
  ∃ f fs, Split s sep = f :: fs ∧ Split (String c s) sep = String c f :: fs.
Proof.
  intros Hc. simpl. rewrite Hc.
  destruct (Split s sep) as [|f fs] eqn:E; [by apply Split_nonempty in E|].
  by exists f, fs.
Qed.

(** A text without the separator is one field. *)
Lemma Split_no_sep (s : string) (sep : ascii) :
  ContainsByte s sep = false -> Split s sep = [s].
Proof.
  induction s as [|c s IH]; simpl; [done|].
  intros [Hc Hs]%orb_false_elim. rewrite Hc, (IH Hs). done.
Qed.

(** A field without the separator, the separator, and the rest. *)
Lemma Split_app_sep (u r : string) (sep : ascii) :
  ContainsByte u sep = false ->
  Split (u +:+ String sep r) sep = u :: Split r sep.
Proof.
  induction u as [|c u IH]; simpl.
  - intros _. rewrite ?append_nil_l. simpl. by rewrite Ascii.eqb_refl.
  - intros [Hc Hu]%orb_false_elim. rewrite ?append_cons. simpl.
    rewrite Hc, (IH Hu). done.
Qed.

(** No field holds the separator, and a byte absent from the text is
    absent from every field. *)
Lemma Split_fields_no_sep (s : string) (sep : ascii) (f : string) :
  f ∈ Split s sep -> ContainsByte f sep = false.
Proof.
  revert f. induction s as [|c s IH]; simpl; intros f.
  - intros ->%list_elem_of_singleton. done.
  - destruct (Ascii.eqb c sep) eqn:Hc.
    + intros [->|Hf]%elem_of_cons; [done|]. by apply IH.
    + destruct (Split s sep) as [|g gs] eqn:E; [by apply Split_nonempty in E|].
      intros [->|Hf]%elem_of_cons.
      * simpl. rewrite Hc. apply IH. by left.
      * apply IH. by right.
Qed.

Lemma Split_fields_without (s : string) (sep b : ascii) (f : string) :
  ContainsByte s b = false -> f ∈ Split s sep -> ContainsByte f b = false.
Proof.
  revert f. induction s as [|c s IH]; simpl; intros f.
  - intros _ ->%list_elem_of_singleton. done.
  - intros [Hc Hs]%orb_false_elim. destruct (Ascii.eqb c sep).
    + intros [->|Hf]%elem_of_cons; [done|]. by apply IH.
    + destruct (Split s sep) as [|g gs] eqn:E; [by apply Split_nonempty in E|].
      intros [->|Hf]%elem_of_cons.
      * simpl. rewrite Hc. apply IH; [done|]. by left.
      * apply IH; [done|]. by right.
Qed.

Lemma ContainsByte_app (s t : string) (b : ascii) :
  ContainsByte (s +:+ t) b = ContainsByte s b || ContainsByte t b.
Proof.
  induction s as [|c s IH]; [done|].
  rewrite append_cons. simpl. by rewrite IH, orb_assoc.
Qed.

(** ** The fields of a manifest line *)

Lemma read_entry_one_field (fn line : string) :
  ContainsByte line " " = false ->
  UrlOrPath (read_entry fn line) = line
  ∧ Version (read_entry fn line) = ""
  ∧ RelativePath (read_entry fn line) = "/".
Proof. intros H. unfold read_entry. rewrite (Split_no_sep _ _ H). done. Qed.

Lemma read_entry_fields (fn line : string) :
  let fields := Split line " " in
  UrlOrPath (read_entry fn line) = default "" (fields !! 0%nat)
  ∧ Version (read_entry fn line) = default "" (fields !! 1%nat)
  ∧ RelativePath (read_entry fn line) = default "/" (fields !! 2%nat)
  ∧ URL (read_entry fn line) = URL.ParseRequestURI (default "" (fields !! 0%nat))
  ∧ Configuration (read_entry fn line) = fn
  ∧ Modified (read_entry fn line) = false.
Proof. done. Qed.

(** C10.  Fields are cut at every single space and nowhere else: a line
    [src], two spaces, [v] has the source [src], an empty version and the
    mount path [v]; and in a line without a space, also one holding a tab
    between two tokens, the whole line is the source, with the default
    version and mount path. *)
Theorem read_entry_splits_on_single_spaces (fn src v : string) :
  ContainsByte src " " = false ->
  ContainsByte v " " = false ->
  (let lib := read_entry fn (src +:+ "  " +:+ v) in
   UrlOrPath lib = src ∧ Version lib = "" ∧ RelativePath lib = v)
  ∧ (let lib := read_entry fn (src +:+ String tab v) in
     UrlOrPath lib = src +:+ String tab v
     ∧ Version lib = "" ∧ RelativePath lib = "/").
Proof.
  intros Hsrc Hv. split.
  - destruct (read_entry_fields fn (src +:+ "  " +:+ v)) as (Hu & Hver & Hrel & _).
    cbv zeta in *. rewrite Hu, Hver, Hrel.
    change ("  " +:+ v) with (String " " (String " " v)).
    rewrite (Split_app_sep _ _ _ Hsrc).
    change (String " " v) with ("" +:+ String " " v).
    rewrite (Split_app_sep "" v " " eq_refl), (Split_no_sep _ _ Hv). done.
  - apply read_entry_one_field.
    rewrite ContainsByte_app. simpl. by rewrite Hsrc, Hv.
Qed.

Lemma read_entry_splits_on_single_spaces_witness :
  (let lib := read_entry "deps.txt" ("lib/a" +:+ "  " +:+ "1.0") in
   UrlOrPath lib = "lib/a" ∧ Version lib = "" ∧ RelativePath lib = "1.0")
  ∧ (let lib := read_entry "deps.txt" ("lib/a" +:+ String tab "1.0") in
     UrlOrPath lib = "lib/a" +:+ String tab "1.0"
     ∧ Version lib = "" ∧ RelativePath lib = "/").
Proof.
  apply (read_entry_splits_on_single_spaces "deps.txt" "lib/a" "1.0");
    reflexivity.
Defined.

(** ** Derived names *)

Lemma Split_three_fields (u v r : string) :
  ContainsByte u " " = false ->
  ContainsByte v " " = false ->
  ContainsByte r " " = false ->
  Split (u +:+ " " +:+ v +:+ " " +:+ r) " " = [u; v; r].
Proof.
  intros Hu Hv Hr.
  change (" " +:+ v +:+ " " +:+ r) with (String " " (v +:+ String " " r)).
  by rewrite (Split_app_sep _ _ _ Hu), (Split_app_sep _ _ _ Hv), (Split_no_sep _ _ Hr).
Qed.

Lemma Split_two_fields (u v : string) :
  ContainsByte u " " = false ->
  ContainsByte v " " = false ->
  Split (u +:+ " " +:+ v) " " = [u; v].
Proof.
  intros Hu Hv. change (" " +:+ v) with (String " " v).
  by rewrite (Split_app_sep _ _ _ Hu), (Split_no_sep _ _ Hv).
Qed.

(** C7, as the code has it.  For the source
    [https://example.com/libs/foo.git], with any version, the derived name
    is [foo] when the mount path is absent or [/], and [foo_sub] when the
    mount path is [/sub]: every slash of the mount path, the leading one
    too, becomes an underscore. *)
Theorem derived_name_foo (fn v : string) :
  ContainsByte v " " = false ->
  Name (read_entry fn foo_url) = "foo"
  ∧ Name (read_entry fn (foo_url +:+ " " +:+ v)) = "foo"
  ∧ Name (read_entry fn (foo_url +:+ " " +:+ v +:+ " " +:+ "/")) = "foo"
  ∧ Name (read_entry fn (foo_url +:+ " " +:+ v +:+ " " +:+ "/sub")) = "foo_sub".
Proof.
  intros Hv. unfold read_entry.
  rewrite (Split_two_fields foo_url v eq_refl Hv).
  rewrite (Split_three_fields foo_url v "/" eq_refl Hv eq_refl).
  rewrite (Split_three_fields foo_url v "/sub" eq_refl Hv eq_refl).
  repeat split; vm_compute; reflexivity.
Qed.

Lemma derived_name_foo_witness :
  Name (read_entry "deps.txt" foo_url) = "foo"
  ∧ Name (read_entry "deps.txt" (foo_url +:+ " " +:+ "1.0")) = "foo"
  ∧ Name (read_entry "deps.txt" (foo_url +:+ " " +:+ "1.0" +:+ " " +:+ "/")) = "foo"
  ∧ Name (read_entry "deps.txt" (foo_url +:+ " " +:+ "1.0" +:+ " " +:+ "/sub"))
    = "foo_sub".
Proof. apply (derived_name_foo "deps.txt" "1.0"). reflexivity. Defined.

(** C7 as stated fails: with the mount path [/sub] the name is not
    [foosub]. *)
Lemma derived_name_sub_is_not_foosub :
  Name (read_entry "deps.txt" "https://example.com/libs/foo.git 1.0 /sub")
  ≠ "foosub".
Proof. vm_compute. discriminate. Qed.

(** ** The scanning loop *)

(** Without a fatal end, the loop appends one entry per line, in order. *)
Lemma read_lines_inl (fn : string) (lines : list string) :
  ∀ libs m libs',
    read_lines fn lines libs m = inl libs' ->
    libs' = (libs ++ map (read_entry fn) lines)%list.
Proof.
  induction lines as [|line rest IH]; simpl; intros libs m libs' H.
  - injection H as <-. by rewrite app_nil_r.
  - destruct (_ && _); [done|].
    apply IH in H. by rewrite H, <- app_assoc.
Qed.

(** The libraries already in [d.Libraries] play no part in the loop. *)
Lemma read_lines_prefix (fn : string) (lines : list string) :
  ∀ libs m,
    read_lines fn lines libs m
    = match read_lines fn lines [] m with
      | inl new => inl (libs ++ new)%list
      | inr u => inr u
      end.
Proof.
  induction lines as [|line rest IH]; simpl; intros libs m.
  - by rewrite app_nil_r.
  - destruct (_ && _); [done|].
    rewrite (IH (libs ++ _)%list), (IH [_]).
    destruct (read_lines fn rest [] _); [|done].
    by rewrite <- app_assoc.
Qed.

(** C8, as the code has it.  [Read] skips nothing: when it returns, the
    libraries are the former ones followed by one entry per scanned line,
    in order; and an empty line gives the entry with an empty source and
    version, the mount path [/], the name [.] and no URL. *)
Theorem Read_one_entry_per_line (fs : Files) (d d' : Dependencies)
    (fn content : string) (err : option error) :
  contents fs !! fn = Some content ->
  Read fs d fn = Returned d' err ->
  Libraries d' = (Libraries d ++ map (read_entry fn) (Bufio.Scan content).1)%list
  ∧ read_entry fn "" = blank_entry fn.
Proof.
  intros Hc. unfold Read. rewrite Hc.
  destruct (Bufio.Scan content) as [lines too_long]. simpl.
  destruct (read_lines fn lines (Libraries d) ∅) as [libs|u] eqn:E; [|done].
  intros [= <- _]. split; [|done]. by apply read_lines_inl in E.
Qed.

Lemma Read_one_entry_per_line_witness :
  Libraries blank_line_result
  = ([] ++ map (read_entry "deps.txt")
             (Bufio.Scan ("lib/a" +:+ newline +:+ newline +:+ "lib/b" +:+ newline)).1)%list
  ∧ read_entry "deps.txt" "" = blank_entry "deps.txt".
Proof.
  apply (Read_one_entry_per_line blank_line_files NewEmptyDependencies
           blank_line_result "deps.txt" _ None); vm_compute; reflexivity.
Defined.

(** C8 as stated fails: the empty second line of this manifest contributes
    the second of three entries. *)
Lemma Read_keeps_blank_line :
  Read blank_line_files NewEmptyDependencies "deps.txt"
  = Returned blank_line_result None
  ∧ (Libraries blank_line_result) !! 1%nat = Some (blank_entry "deps.txt").
Proof. split; vm_compute; reflexivity. Qed.

(** ** Version conflicts *)

Lemma mismatch_test (seen v : string) :
  negb (String.eqb seen "") && negb (String.eqb seen v) = true
  ↔ seen ≠ "" ∧ seen ≠ v.
Proof.
  rewrite andb_true_iff, !negb_true_iff.
  split; intros [H1 H2]; split.
  - by apply String.eqb_neq.
  - by apply String.eqb_neq.
  - by apply String.eqb_neq.
  - by apply String.eqb_neq.
Qed.

Lemma conflicting_pair_cons (e : Library) (entries : list Library) :
  conflicting_pair (e :: entries)
  ↔ (∃ j lj, entries !! j = Some lj ∧ UrlOrPath e = UrlOrPath lj
             ∧ Version e ≠ "" ∧ Version e ≠ Version lj)
    ∨ conflicting_pair entries.
Proof.
  split.
  - intros (i & j & li & lj & Hij & Hi & Hj & Hu & Hv).
    destruct j as [|j]; [lia|]. destruct i as [|i]; simpl in *.
    + left. injection Hi as <-. by exists j, lj.
    + right. exists i, j, li, lj. split; [lia|done].
  - intros [(j & lj & Hj & Hu & Hv)|(i & j & li & lj & Hij & Hi & Hj & Hu & Hv)].
    + exists 0%nat, (S j), e, lj. split; [lia|done].
    + exists (S i), (S j), li, lj. split; [lia|done].
Qed.

(** The loop ends fatally exactly when some entry clashes with the map it
    started from or two of its entries conflict. *)
Lemma read_lines_fatal_iff (fn : string) (lines : list string) :
  ∀ libs m,
    (∃ u, read_lines fn lines libs m = inr u)
    ↔ clashes m (map (read_entry fn) lines)
      ∨ conflicting_pair (map (read_entry fn) lines).
Proof.
  induction lines as [|line rest IH]; intros libs m.
  - split.
    + intros [u Hu]. done.
    + intros [(j & lj & Hj & _)|(i & j & li & lj & _ & Hi & _)]; done.
  - cbn [map read_lines]. generalize (read_entry fn line). intros e.
    set (entries := map (read_entry fn) rest).
    destruct (negb (String.eqb (default "" (m !! UrlOrPath e)) "")
              && negb (String.eqb (default "" (m !! UrlOrPath e)) (Version e)))
      eqn:Htest.
    + apply mismatch_test in Htest. split; [|by eauto].
      intros _. left. exists 0%nat, e. done.
    + assert (Hok : ¬ (default "" (m !! UrlOrPath e) ≠ ""
                       ∧ default "" (m !! UrlOrPath e) ≠ Version e)).
      { intros H%mismatch_test. congruence. }
      rewrite IH, conflicting_pair_cons. fold entries. split.
      * intros [(j & lj & Hj & Hs1 & Hs2)|Hpair]; [|by right; right].
        destruct (decide (UrlOrPath e = UrlOrPath lj)) as [Heq|Hne].
        -- rewrite <- Heq, lookup_insert_eq in Hs1, Hs2. simpl in *.
           right; left. by exists j, lj.
        -- rewrite lookup_insert_ne in Hs1, Hs2 by done.
           left. by exists (S j), lj.
      * intros [(j & lj & Hj & Hs1 & Hs2)|[(j & lj & Hj & Hu & Hv1 & Hv2)|Hpair]].
        -- destruct j as [|j]; simpl in Hj.
           { injection Hj as <-. by destruct Hok. }
           left. exists j, lj. split; [done|].
           destruct (decide (UrlOrPath e = UrlOrPath lj)) as [Heq|Hne].
           ++ rewrite <- Heq, lookup_insert_eq. simpl.
              rewrite <- Heq in Hs1, Hs2.
              destruct (decide (default "" (m !! UrlOrPath e) = Version e))
                as [Hsame|Hdiff]; [|by destruct Hok].
              by rewrite <- Hsame.
           ++ by rewrite lookup_insert_ne.
        -- left. exists j, lj. split; [done|].
           by rewrite Hu, lookup_insert_eq.
        -- by right.
Qed.

Lemma clashes_empty (entries : list Library) : ¬ clashes ∅ entries.
Proof. intros (j & lj & _ & H & _). by rewrite lookup_empty in H. Qed.

Lemma Read_outcome (fs : Files) (d : Dependencies) (fn content : string) :
  contents fs !! fn = Some content ->
  Read fs d fn
  = match read_lines fn (Bufio.Scan content).1 (Libraries d) ∅ with
    | inr u => Fatal u
    | inl libs =>
        Returned (mkDependencies libs)
                 (if (Bufio.Scan content).2 then Some ErrTooLong else None)
    end.
Proof.
  intros Hc. unfold Read. rewrite Hc. by destruct (Bufio.Scan content).
Qed.

(** C4, as the code has it.  Reading one manifest ends fatally exactly
    when two of its entries share the source and the earlier one has a
    non-empty version that differs from the later one's, whether the later
    version is empty or not.  So entries with differing non-empty versions
    are fatal, a pinned entry followed by an unpinned one is fatal too, and
    equal versions or an unpinned entry followed by a pinned one are not. *)
Theorem Read_fatal_iff_conflicting_pair (fs : Files) (d : Dependencies)
    (fn content : string) :
  contents fs !! fn = Some content ->
  (∃ u, Read fs d fn = Fatal u)
  ↔ conflicting_pair (map (read_entry fn) (Bufio.Scan content).1).
Proof.
  intros Hc. rewrite (Read_outcome _ _ _ _ Hc).
  pose proof (read_lines_fatal_iff fn (Bufio.Scan content).1 (Libraries d) ∅) as H.
  destruct (read_lines fn _ (Libraries d) ∅) as [libs|u] eqn:E.
  - split; [intros [u Hu]; done|].
    intros Hp. destruct H as [_ H]. destruct H as [u Hu]; [by right|done].
  - split; [|by eauto]. intros _.
    destruct H as [H _]. destruct H as [H|H]; [by eauto| |done].
    by apply clashes_empty in H.
Qed.

Lemma Read_fatal_iff_conflicting_pair_witness :
  (∃ u, Read pinned_then_unpinned NewEmptyDependencies "deps.txt" = Fatal u)
  ↔ conflicting_pair
      (map (read_entry "deps.txt")
           (Bufio.Scan ("https://x/a.git 1.0" +:+ newline
                        +:+ "https://x/a.git" +:+ newline)).1).
Proof.
  apply (Read_fatal_iff_conflicting_pair pinned_then_unpinned). reflexivity.
Defined.

(** C4 as stated fails: the second of these two entries has an empty
    version, and reading them ends fatally. *)
Lemma Read_pinned_then_unpinned_is_fatal :
  map Version (map (read_entry "deps.txt") ["https://x/a.git 1.0"; "https://x/a.git"])
  = ["1.0"; ""]
  ∧ Read pinned_then_unpinned NewEmptyDependencies "deps.txt"
    = Fatal "https://x/a.git".
Proof. split; vm_compute; reflexivity. Qed.

(** ** The scope of the version map *)

(** C5, as the code has it.  The version map is made anew by every call
    of [Read]: what a call does with a manifest does not depend on the
    libraries read before, from other manifests, into the same
    [Dependencies]; they are kept in front of the new ones. *)
Theorem Read_conflicts_are_per_file (fs : Files) (d : Dependencies) (fn : string) :
  Read fs d fn
  = match Read fs NewEmptyDependencies fn with
    | Returned new err =>
        Returned (mkDependencies (Libraries d ++ Libraries new)) err
    | Fatal u => Fatal u
    end.
Proof.
  unfold Read. destruct (contents fs !! fn) as [content|].
  - destruct (Bufio.Scan content) as [lines too_long].
    rewrite (read_lines_prefix fn lines (Libraries d)). simpl.
    by destruct (read_lines fn lines [] ∅).
  - simpl. rewrite app_nil_r. by destruct d.
Qed.

(** C5 as stated fails: the same source with the versions [1.0] and [2.0]
    in two manifests read one after the other into the same
    [Dependencies]; both calls return without an error. *)
Lemma Read_misses_conflict_across_files :
  Read two_manifests NewEmptyDependencies "a/deps.txt"
  = Returned two_manifests_first None
  ∧ Read two_manifests two_manifests_first "b/deps.txt"
    = Returned two_manifests_both None
  ∧ map UrlOrPath (Libraries two_manifests_both)
    = ["https://x/a.git"; "https://x/a.git"]
  ∧ map Version (Libraries two_manifests_both) = ["1.0"; "2.0"].
Proof. repeat split; vm_compute; reflexivity. Qed.

(** ** Which sources get a URL *)

Lemma plain_no_ctl (s : string) :
  URL.all_bytes plain_byte s = true -> URL.stringContainsCTLByte s = false.
Proof.
  unfold URL.stringContainsCTLByte. intros H. apply negb_false_iff.
  induction s as [|c s IH]; simpl in *; [done|].
  apply andb_true_iff in H as [Hc Hs]. rewrite (IH Hs), andb_true_r.
  unfold plain_byte in Hc. by apply andb_true_iff in Hc as [[Hc _]%andb_true_iff _].
Qed.

Lemma plain_no_byte (s : string) (b : ascii) :
  plain_byte b = false ->
  URL.all_bytes plain_byte s = true -> ContainsByte s b = false.
Proof.
  intros Hb. induction s as [|c s IH]; simpl; [done|].
  intros [Hc Hs]%andb_true_iff. rewrite (IH Hs), orb_false_r.
  destruct (Ascii.eqb_spec c b) as [->|]; [congruence|done].
Qed.

Lemma Cut_no_sep (s : string) (sep : ascii) :
  ContainsByte s sep = false -> Cut s sep = (s, "", false).
Proof.
  induction s as [|c s IH]; simpl; [done|].
  intros [Hc Hs]%orb_false_elim. by rewrite Hc, (IH Hs).
Qed.

Lemma CountByte_no_sep (s : string) (sep : ascii) :
  ContainsByte s sep = false -> CountByte s sep = 0%nat.
Proof.
  induction s as [|c s IH]; simpl; [done|].
  intros [Hc Hs]%orb_false_elim. by rewrite Hc, (IH Hs).
Qed.

Lemma unescape_no_percent (s : string) :
  ContainsByte s "%" = false -> URL.unescape s URL.encodePath = Some s.
Proof.
  induction s as [|c s IH]; simpl; [done|].
  intros [Hc Hs]%orb_false_elim. by rewrite Hc, (IH Hs).
Qed.

(** An absolute path of plain bytes is accepted, as a URL that has only a
    path. *)
Lemma ParseRequestURI_absolute_path (s : string) :
  URL.all_bytes plain_byte s = true ->
  URL.ParseRequestURI (String "/" s)
  = Some (URL.mkURL "" "" None "" (String "/" s) false "").
Proof.
  intros Hs.
  assert (Hp : URL.all_bytes plain_byte (String "/" s) = true) by (simpl; done).
  unfold URL.ParseRequestURI. rewrite (plain_no_ctl _ Hp).
  change (String.eqb (String "/" s) "") with false.
  assert (String.eqb (String "/" s) "*" = false) as -> by (by apply String.eqb_neq).
  change (URL.getScheme (String "/" s)) with (Some ("", String "/" s)).
  cbn [mbind option_bind ToLower].
  pose proof (plain_no_byte _ "?" eq_refl Hp) as Hq.
  rewrite (CountByte_no_sep _ _ Hq), andb_false_r, (Cut_no_sep _ _ Hq).
  change (HasPrefix (String "/" s) "/") with true.
  change (String.eqb "" "") with true. cbn [negb andb].
  by rewrite (unescape_no_percent _ (plain_no_byte _ "%" eq_refl Hp)).
Qed.

Lemma scan_scheme_no_colon (s : string) (first : bool) :
  ContainsByte s ":" = false -> URL.scan_scheme first s = URL.NoScheme.
Proof.
  revert first. induction s as [|c s IH]; intros first; simpl; [done|].
  intros [Hc Hs]%orb_false_elim. rewrite (IH false Hs), Hc.
  destruct (is_alpha c); [done|].
  destruct (is_digit c || _); [by destruct first|done].
Qed.

Lemma HasPrefix_drop_last (s : string) (b : ascii) :
  HasPrefix s (String b "") = false ->
  HasPrefix (drop_last s) (String b "") = false.
Proof.
  destruct s as [|c [|c' s]]; simpl; try done.
Qed.

Lemma HasPrefix_Cut (s : string) (sep b : ascii) :
  HasPrefix s (String b "") = false ->
  HasPrefix (Cut s sep).1.1 (String b "") = false.
Proof.
  destruct s as [|c s]; simpl; [done|].
  destruct (Ascii.eqb c sep); [done|].
  by destruct (Cut s sep) as [[before after] found].
Qed.

(** A text without a colon that does not start with a slash (a relative
    path) is refused; so is the empty text. *)
Lemma ParseRequestURI_relative_path (s : string) :
  s ≠ "*" ->
  ContainsByte s ":" = false ->
  HasPrefix s "/" = false ->
  URL.ParseRequestURI s = None.
Proof.
  intros Hstar Hcolon Hslash. unfold URL.ParseRequestURI.
  destruct (URL.stringContainsCTLByte s); [done|].
  destruct (String.eqb s ""); [done|].
  apply String.eqb_neq in Hstar. rewrite Hstar.
  unfold URL.getScheme. rewrite (scan_scheme_no_colon _ _ Hcolon).
  cbn [mbind option_bind ToLower].
  destruct (HasSuffix s "?" && (CountByte s "?" =? 1)%nat).
  - by rewrite (HasPrefix_drop_last _ _ Hslash).
  - pose proof (HasPrefix_Cut s "?" "/" Hslash) as Hcut.
    destruct (Cut s "?") as [[before after] found].
    change (HasPrefix before "/" = false) in Hcut. by rewrite Hcut.
Qed.

(** ** Resolution of one library *)

Section ResolutionProperties.

Context {World : Type}.
Variable Stat : World -> string -> option FileInfo.
Variable Getwd : World -> outcome string.
Variable MkdirAll : World -> string -> World * option string.
Variable CloneDependency :
  World -> Library -> string -> bool -> World * outcome string.
Variable GetRepositoryHash : World -> string -> World * outcome string.
Variable GetWorkingCopyPathAndName : World -> Library -> string -> World * string.
Variable WriteTemplate :
  World -> string -> list DependencyInfo -> World * option string.

Local Abbreviation override :=
  (override_step Stat Getwd MkdirAll GetWorkingCopyPathAndName).
Local Abbreviation fetch := (fetch_step Stat CloneDependency GetRepositoryHash).
Local Abbreviation resolve :=
  (resolve_library Stat Getwd MkdirAll CloneDependency GetRepositoryHash
     GetWorkingCopyPathAndName).
Local Abbreviation resolve_libs :=
  (resolve_all Stat Getwd MkdirAll CloneDependency GetRepositoryHash
     GetWorkingCopyPathAndName).
Local Abbreviation refresh :=
  (Refresh Stat Getwd MkdirAll CloneDependency GetRepositoryHash
     GetWorkingCopyPathAndName WriteTemplate).

Lemma Abs_result (path : string) (w : World) :
  (∃ p, Abs Getwd path w = (w, Ok p))
  ∨ (∃ msg, Abs Getwd path w = (w, Err (ErrExternal msg))).
Proof.
  unfold Abs. destruct (Path.IsAbs path); [by left; eexists|].
  unfold bind, read_world, lift_outcome, ret.
  destruct (Getwd w); [left|right]; by eexists.
Qed.

Lemma checkForLocalOverride_result (lib : Library) (w : World) :
  (∃ p, checkForLocalOverride Stat Getwd lib w = (w, Ok p))
  ∨ (∃ msg, checkForLocalOverride Stat Getwd lib w = (w, Err (ErrExternal msg))).
Proof.
  unfold checkForLocalOverride.
  destruct (Stat w _) as [s|]; [|by left; eexists].
  destruct (negb (IsRegular s)); [apply Abs_result|by left; eexists].
Qed.

Lemma override_step_unfold (directory : string) (allowLocal : bool)
    (lib : Library) (w : World) :
  override directory allowLocal lib w
  = if allowLocal then
      match checkForLocalOverride Stat Getwd lib w with
      | (w0, Err e) => (w0, Err e)
      | (w0, Ok overridePath) =>
          if String.eqb overridePath "" then (w0, Ok "")
          else match URL lib with
               | None => (w0, Ok overridePath)
               | Some _ =>
                   let '(w1, dummyPath) :=
                     GetWorkingCopyPathAndName w0 lib directory in
                   match MkdirAll w1 dummyPath with
                   | (w2, None) => (w2, Ok overridePath)
                   | (w2, Some msg) => (w2, Err (ErrExternal msg))
                   end
               end
      end
    else (w, Ok "").
Proof.
  unfold override_step. destruct allowLocal; [|done].
  unfold bind at 1.
  destruct (checkForLocalOverride Stat Getwd lib w) as [w0 [p|e]]; [|done].
  destruct (String.eqb p ""); [done|]. simpl.
  destruct (URL lib); [|done].
  unfold bind, touchLocalOverrideDummy, ret.
  destruct (GetWorkingCopyPathAndName w0 lib directory) as [w1 dummy].
  by destruct (MkdirAll w1 dummy) as [w2 [msg|]].
Qed.

(** The override step gives no path exactly in the two cases of
    [no_override], and then leaves the world as it was; otherwise it gives
    a path or an error of the operating system. *)
Lemma override_step_result (directory : string) (allowLocal : bool)
    (lib : Library) (w : World) :
  (no_override Stat Getwd allowLocal lib w ∧ override directory allowLocal lib w = (w, Ok ""))
  ∨ (¬ no_override Stat Getwd allowLocal lib w
     ∧ ((∃ w' p, p ≠ "" ∧ override directory allowLocal lib w = (w', Ok p))
        ∨ (∃ w' msg, override directory allowLocal lib w
                     = (w', Err (ErrExternal msg))))).
Proof.
  rewrite override_step_unfold. unfold no_override.
  destruct allowLocal; [|left; split; [by left|done]].
  destruct (checkForLocalOverride_result lib w) as [[p Hp]|[msg Hmsg]].
  - rewrite Hp. destruct (String.eqb_spec p "") as [->|Hne].
    + left. split; [by right|done].
    + right. split; [intros [?|[=]]; done|].
      destruct (URL lib); [|left; by exists w, p].
      destruct (GetWorkingCopyPathAndName w lib directory) as [w1 dummy].
      destruct (MkdirAll w1 dummy) as [w2 [msg|]].
      * right. by exists w2, msg.
      * left. by exists w2, p.
  - rewrite Hmsg. right. split; [intros [?|[=]]; done|].
    right. by exists w, msg.
Qed.

Lemma resolve_with_path (directory : string) (useHead allowLocal : bool)
    (lib : Library) (w w' : World) (p : string) :
  p ≠ "" ->
  override directory allowLocal lib w = (w', Ok p) ->
  ∀ l, (resolve directory useHead allowLocal lib w).2 ≠ Err (ErrUnableToFind l).
Proof.
  intros Hp Ho l. unfold resolve_library, bind at 1. rewrite Ho.
  unfold bind at 1, fetch_step.
  apply String.eqb_neq in Hp. rewrite Hp. unfold ret at 1. rewrite Hp.
  unfold bind. destruct (Abs_result p w') as [[q ->]|[msg ->]]; done.
Qed.

(** Without an override the outcome is that of the clone or of the look
    at the local directory. *)
Lemma resolve_without_override (directory : string) (useHead allowLocal : bool)
    (lib : Library) (w : World) :
  no_override Stat Getwd allowLocal lib w ->
  resolve directory useHead allowLocal lib w
  = bind (fetch directory useHead lib "")
      (fun dependencyPath =>
         if String.eqb dependencyPath "" then fail (ErrUnableToFind lib)
         else bind (Abs Getwd dependencyPath)
                (fun dependencyPath =>
                   ret (mkDependencyInfo (Name lib) dependencyPath
                          (RelativePath lib)))) w.
Proof.
  intros Hno. unfold resolve_library, bind at 1.
  destruct (override_step_result directory allowLocal lib w) as [[_ ->]|[H _]]; done.
Qed.

(** A local source without an override is never resolved: the directory
    is looked at, the hash may be asked for, and no path is set. *)
Lemma resolve_local_source (directory : string) (useHead allowLocal : bool)
    (lib : Library) (w : World) :
  no_override Stat Getwd allowLocal lib w ->
  URL lib = None ->
  ∃ w', resolve directory useHead allowLocal lib w = (w', Err (ErrUnableToFind lib))
        ∧ (not_a_directory Stat w (UrlOrPath lib) -> w' = w).
Proof.
  intros Hno Hurl. rewrite (resolve_without_override _ _ _ _ _ Hno).
  unfold bind, fetch_step, not_a_directory. rewrite Hurl. simpl.
  destruct (Stat w (UrlOrPath lib)) as [s|]; [|by exists w].
  destruct (IsDir s); [|by exists w].
  destruct (GetRepositoryHash w (UrlOrPath lib)) as [w' h].
  exists w'. split; [done|]. done.
Qed.

Lemma resolve_url_source (directory : string) (useHead allowLocal : bool)
    (lib : Library) (w : World) (u : URL.t) :
  no_override Stat Getwd allowLocal lib w ->
  URL lib = Some u ->
  resolve directory useHead allowLocal lib w
  = match CloneDependency w lib directory useHead with
    | (w1, Failed msg) => (w1, Err (ErrExternal msg))
    | (w1, Done clonePath) =>
        if String.eqb clonePath "" then (w1, Err (ErrUnableToFind lib))
        else bind (Abs Getwd clonePath)
               (fun dependencyPath =>
                  ret (mkDependencyInfo (Name lib) dependencyPath
                         (RelativePath lib))) w1
    end.
Proof.
  intros Hno Hurl. rewrite (resolve_without_override _ _ _ _ _ Hno).
  unfold bind at 1, fetch_step. rewrite Hurl. simpl.
  unfold bind at 1, lift_outcome, ret.
  destruct (CloneDependency w lib directory useHead) as [w1 [clonePath|msg]];
    [|done].
  by destruct (String.eqb clonePath "").
Qed.

(** A source without a URL never reaches the clone: the outcome is the
    same whatever [CloneDependency] is. *)
Lemma resolve_local_ignores_clone (directory : string) (useHead allowLocal : bool)
    (lib : Library) (w : World)
    (OtherClone : World -> Library -> string -> bool -> World * outcome string) :
  URL lib = None ->
  resolve directory useHead allowLocal lib w
  = resolve_library Stat Getwd MkdirAll OtherClone GetRepositoryHash
      GetWorkingCopyPathAndName directory useHead allowLocal lib w.
Proof.
  intros Hurl. unfold resolve_library, fetch_step. by rewrite Hurl.
Qed.

(** C2, as the code has it.  The error "Unable to find dependency" is
    returned for a library only when no override applies and either the
    source has no URL or the clone returned the empty path without an
    error.  It is returned when no override applies and the source has no
    URL and its path is missing or not a directory, and when the clone
    returns the empty path.  When the clone fails, its own error is
    returned instead. *)
Theorem unable_to_find_cases (directory : string) (useHead allowLocal : bool)
    (lib : Library) (w : World) :
  (∀ w' l,
     resolve directory useHead allowLocal lib w = (w', Err (ErrUnableToFind l)) ->
     l = lib ∧ no_override Stat Getwd allowLocal lib w
     ∧ (URL lib = None
        ∨ (is_Some (URL lib)
           ∧ CloneDependency w lib directory useHead = (w', Done ""))))
  ∧ (no_override Stat Getwd allowLocal lib w -> URL lib = None ->
     not_a_directory Stat w (UrlOrPath lib) ->
     resolve directory useHead allowLocal lib w = (w, Err (ErrUnableToFind lib)))
  ∧ (∀ w1, no_override Stat Getwd allowLocal lib w -> is_Some (URL lib) ->
           CloneDependency w lib directory useHead = (w1, Done "") ->
           resolve directory useHead allowLocal lib w
           = (w1, Err (ErrUnableToFind lib)))
  ∧ (∀ w1 msg, no_override Stat Getwd allowLocal lib w -> is_Some (URL lib) ->
               CloneDependency w lib directory useHead = (w1, Failed msg) ->
               resolve directory useHead allowLocal lib w
               = (w1, Err (ErrExternal msg))).
Proof.
  split; [|split; [|split]].
  - intros w' l H.
    destruct (override_step_result directory allowLocal lib w)
      as [[Hno _]|[_ [(w0 & p & Hp & Ho)|(w0 & msg & Ho)]]].
    + destruct (URL lib) as [u|] eqn:Hurl.
      * rewrite (resolve_url_source _ _ _ _ _ u Hno Hurl) in H.
        destruct (CloneDependency w lib directory useHead) as [w1 [clonePath|msg]];
          [|done].
        destruct (String.eqb clonePath "") eqn:Hempty.
        -- apply String.eqb_eq in Hempty. subst clonePath.
           injection H as <- <-. repeat split; try done. right. by eauto.
        -- unfold bind in H.
           destruct (Abs_result clonePath w1) as [[q Hq]|[msg Hq]];
             rewrite Hq in H; done.
      * destruct (resolve_local_source directory useHead allowLocal lib w Hno Hurl)
          as (w1 & Hr & _).
        rewrite Hr in H. injection H as <- <-. repeat split; try done. by left.
    + pose proof (resolve_with_path directory useHead allowLocal lib w w0 p Hp Ho l)
        as Hnot.
      rewrite H in Hnot. done.
    + unfold resolve_library, bind at 1 in H. rewrite Ho in H. done.
  - intros Hno Hurl Hdir.
    destruct (resolve_local_source directory useHead allowLocal lib w Hno Hurl)
      as (w1 & Hr & Hw).
    by rewrite Hr, (Hw Hdir).
  - intros w1 Hno [u Hurl] Hclone.
    by rewrite (resolve_url_source _ _ _ _ _ u Hno Hurl), Hclone.
  - intros w1 msg Hno [u Hurl] Hclone.
    by rewrite (resolve_url_source _ _ _ _ _ u Hno Hurl), Hclone.
Qed.


End ResolutionProperties.

Example end_to_end_url_source :
  disk_resolve "cache" false false lib_a (local_disk true)
  = (mkDisk ["cache/a"; "/local/b"; "local/b"] true,
     Ok (mkDependencyInfo "a" "/work/project/cache/a" "/")).
Proof. vm_compute. reflexivity. Qed.

(** The directory [local/b] exists; the library is still not found. *)
Example relative_local_directory_unresolved :
  disk_Stat (local_disk true) "local/b" = Some (mkFileInfo false true)
  ∧ disk_resolve "cache" false false lib_relative_b (local_disk true)
    = (local_disk true, Err (ErrUnableToFind lib_relative_b)).
Proof. split; vm_compute; reflexivity. Qed.




Lemma unable_to_find_cases_witness :
  disk_resolve "cache" false false lib_missing (local_disk true)
  = (local_disk true, Err (ErrUnableToFind lib_missing))
  ∧ disk_resolve "cache" false false lib_a (local_disk false)
    = (local_disk false, Err (ErrExternal "clone failed")).
Proof.
  destruct (unable_to_find_cases disk_Stat disk_Getwd disk_MkdirAll disk_Clone
              disk_Hash disk_WorkingCopy "cache" false false lib_missing
              (local_disk true)) as (_ & Hlocal & _).
  destruct (unable_to_find_cases disk_Stat disk_Getwd disk_MkdirAll disk_Clone
              disk_Hash disk_WorkingCopy "cache" false false lib_a
              (local_disk false)) as (_ & _ & _ & Hclone).
  split.
  - apply Hlocal; [by left|reflexivity|exact I].
  - apply Hclone; [by left|by eexists|reflexivity].
Defined.

(** C2 as stated fails, twice: a URL source without an override whose
    clone fails ends in the clone's error, not in "Unable to find
    dependency"; and a local source without an override whose path is an
    existing directory ends in "Unable to find dependency". *)
Lemma unable_to_find_is_not_the_clone_error :
  (is_Some (URL lib_a)
   ∧ disk_Clone (local_disk false) lib_a "cache" false
     = (local_disk false, Failed "clone failed")
   ∧ disk_resolve "cache" false false lib_a (local_disk false)
     = (local_disk false, Err (ErrExternal "clone failed")))
  ∧ (URL lib_relative_b = None
     ∧ disk_Stat (local_disk true) (UrlOrPath lib_relative_b)
       = Some (mkFileInfo false true)
     ∧ disk_resolve "cache" false false lib_relative_b (local_disk true)
       = (local_disk true, Err (ErrUnableToFind lib_relative_b))).
Proof. repeat split; try (by eexists); vm_compute; reflexivity. Qed.

(** ** Absolute URIs *)

Lemma alpha_facts (c : ascii) :
  is_alpha c = true ->
  plain_byte c = true ∧ Ascii.eqb c "*" = false ∧ Ascii.eqb c ":" = false.
Proof.
  destruct c as [b0 b1 b2 b3 b4 b5 b6 b7].
  destruct b0, b1, b2, b3, b4, b5, b6, b7; intros H; cbv in H;
    try discriminate H; cbv; repeat split.
Qed.

Lemma host_byte_facts (c : ascii) :
  host_byte c = true ->
  plain_byte c = true ∧ URL.shouldEscapeHost c = false
  ∧ Ascii.eqb c "/" = false ∧ Ascii.eqb c "@" = false
  ∧ Ascii.eqb c ":" = false ∧ Ascii.eqb c "[" = false.
Proof.
  destruct c as [b0 b1 b2 b3 b4 b5 b6 b7].
  destruct b0, b1, b2, b3, b4, b5, b6, b7; intros H; cbv in H;
    try discriminate H; cbv; repeat split.
Qed.

Lemma all_bytes_app (p : ascii -> bool) (s t : string) :
  URL.all_bytes p (s +:+ t) = URL.all_bytes p s && URL.all_bytes p t.
Proof.
  induction s as [|c s IH]; [done|]. rewrite append_cons.
  cbn [URL.all_bytes]. by rewrite IH, andb_assoc.
Qed.

Lemma all_bytes_impl (p q : ascii -> bool) (s : string) :
  (∀ c, p c = true -> q c = true) ->
  URL.all_bytes p s = true -> URL.all_bytes q s = true.
Proof.
  intros Hpq. induction s as [|c s IH]; [done|]. cbn [URL.all_bytes].
  intros [Hc Hs]%andb_true_iff. by rewrite (Hpq c Hc), (IH Hs).
Qed.

Lemma all_bytes_no_byte (p : ascii -> bool) (s : string) (b : ascii) :
  (∀ c, p c = true -> Ascii.eqb c b = false) ->
  URL.all_bytes p s = true -> ContainsByte s b = false.
Proof.
  intros Hp. induction s as [|c s IH]; [done|]. cbn [URL.all_bytes ContainsByte].
  intros [Hc Hs]%andb_true_iff. by rewrite (Hp c Hc), (IH Hs).
Qed.

Lemma scan_scheme_found (scheme rest : string) (first : bool) :
  URL.all_bytes is_alpha scheme = true ->
  URL.scan_scheme first (scheme +:+ String ":" rest)
  = match scheme with
    | EmptyString => if first then URL.MissingScheme else URL.FoundScheme "" rest
    | _ => URL.FoundScheme scheme rest
    end.
Proof.
  revert first. induction scheme as [|c s IH]; intros first.
  - intros _. by destruct first.
  - cbn [URL.all_bytes]. intros [Hc Hs]%andb_true_iff.
    rewrite append_cons. cbn [URL.scan_scheme]. rewrite Hc, (IH false Hs).
    by destruct s.
Qed.

Lemma CutLast_none (s : string) (sep : ascii) :
  ContainsByte s sep = false -> CutLast s sep = None.
Proof.
  induction s as [|c s IH]; [done|]. cbn [ContainsByte CutLast].
  intros [Hc Hs]%orb_false_elim. by rewrite (IH Hs), Hc.
Qed.

Lemma Cut_app_sep (u r : string) (sep : ascii) :
  ContainsByte u sep = false -> Cut (u +:+ String sep r) sep = (u, r, true).
Proof.
  induction u as [|c u IH].
  - intros _. change ("" +:+ String sep r) with (String sep r). cbn [Cut].
    by rewrite Ascii.eqb_refl.
  - cbn [ContainsByte]. intros [Hc Hu]%orb_false_elim.
    rewrite append_cons. cbn [Cut]. by rewrite Hc, (IH Hu).
Qed.

Lemma unescape_host_bytes (host : string) :
  URL.all_bytes host_byte host = true ->
  URL.unescape host URL.encodeHost = Some host.
Proof.
  induction host as [|c h IH]; [done|]. cbn [URL.all_bytes].
  intros [Hc Hh]%andb_true_iff.
  destruct (host_byte_facts c Hc) as (Hplain & Hesc & _).
  assert (Hpct : Ascii.eqb c "%" = false).
  { unfold plain_byte in Hplain.
    apply andb_true_iff in Hplain as [[_ H]%andb_true_iff _].
    by apply negb_true_iff in H. }
  cbn [URL.unescape]. rewrite Hpct, Hesc, !andb_false_r, (IH Hh). done.
Qed.

Lemma parseAuthority_host (host : string) :
  URL.all_bytes host_byte host = true ->
  URL.parseAuthority host = Some (None, host).
Proof.
  intros Hhost.
  assert (Hno : ∀ b, (∀ c, host_byte c = true -> Ascii.eqb c b = false) ->
                     ContainsByte host b = false).
  { intros b Hb. by apply (all_bytes_no_byte host_byte). }
  unfold URL.parseAuthority, URL.parseHost.
  rewrite (CutLast_none host "@"), (CutLast_none host ":");
    [| apply Hno; intros c Hc; by destruct (host_byte_facts c Hc) as (_&_&_&_&?&_)
     | apply Hno; intros c Hc; by destruct (host_byte_facts c Hc) as (_&_&_&?&_) ].
  assert (HasPrefix host "[" = false) as ->.
  { destruct host as [|c h]; [done|]. cbn [URL.all_bytes] in Hhost.
    apply andb_true_iff in Hhost as [Hc _].
    destruct (host_byte_facts c Hc) as (_&_&_&_&_&Hb). cbn [HasPrefix]. by rewrite Hb. }
  by rewrite (unescape_host_bytes host Hhost).
Qed.

(** An absolute URI with a scheme of letters, a host of letters, digits,
    dots and hyphens, and a path of plain bytes is accepted, with the scheme
    in lower case, this host and this path. *)
Lemma ParseRequestURI_absolute_uri (scheme host path : string) :
  scheme ≠ "" ->
  URL.all_bytes is_alpha scheme = true ->
  URL.all_bytes host_byte host = true ->
  URL.all_bytes plain_byte path = true ->
  URL.ParseRequestURI (absolute_uri scheme host path)
  = Some (URL.mkURL (ToLower scheme) "" None host (String "/" path) false "").
Proof.
  intros Hne Hscheme Hhost Hpath.
  set (rest := String "/" (String "/" (host +:+ String "/" path))).
  assert (Hraw : absolute_uri scheme host path = scheme +:+ String ":" rest) by done.
  assert (Hrest : URL.all_bytes plain_byte rest = true).
  { subst rest. cbn [URL.all_bytes]. rewrite all_bytes_app. cbn [URL.all_bytes].
    rewrite Hpath, (all_bytes_impl host_byte plain_byte host); [done| |done].
    intros c Hc. by destruct (host_byte_facts c Hc). }
  assert (Hall : URL.all_bytes plain_byte (absolute_uri scheme host path) = true).
  { rewrite Hraw, all_bytes_app. cbn [URL.all_bytes].
    rewrite Hrest, (all_bytes_impl is_alpha plain_byte scheme); [done| |done].
    intros c Hc. by destruct (alpha_facts c Hc). }
  unfold URL.ParseRequestURI. rewrite (plain_no_ctl _ Hall). rewrite Hraw.
  destruct scheme as [|c s]; [done|]. cbn [URL.all_bytes] in Hscheme.
  apply andb_true_iff in Hscheme as [Hc Hs].
  destruct (alpha_facts c Hc) as (_ & Hstar & _).
  rewrite append_cons. change (String.eqb (String c ?x) "") with false.
  cbn [String.eqb]. rewrite Hstar. rewrite <- append_cons.
  unfold URL.getScheme. rewrite scan_scheme_found by (cbn [URL.all_bytes]; by rewrite Hc, Hs).
  cbn [mbind option_bind].
  pose proof (plain_no_byte _ "?" eq_refl Hrest) as Hq.
  rewrite (CountByte_no_sep _ _ Hq), andb_false_r, (Cut_no_sep _ _ Hq).
  change (HasPrefix rest "/") with true. change (HasPrefix rest "//") with true.
  change (String.eqb (ToLower (String c s)) "") with false. cbn [negb andb].
  change (drop_bytes 2 rest) with (host +:+ String "/" path).
  rewrite Cut_app_sep.
  2:{ apply (all_bytes_no_byte host_byte); [|done].
      intros b Hb. by destruct (host_byte_facts b Hb) as (_&_&?&_). }
  rewrite (parseAuthority_host host Hhost). cbn [mbind option_bind].
  by rewrite (unescape_no_percent _ (plain_no_byte (String "/" path) "%" eq_refl
                                       ltac:(cbn [URL.all_bytes]; by rewrite Hpath))).
Qed.

(** C3, as the code has it.  The URL of a library is what
    [ParseRequestURI] makes of its source.  It is present for an absolute
    URI (a scheme of letters, [://], a plain host and an absolute path of
    plain bytes), with that scheme, host and path; and it is present for an
    absolute path of plain bytes, as a URL that holds this path only.  A
    library with a URL goes to the clone when no override applies: the
    outcome of its resolution is that of [CloneDependency].  A source other
    than [*] without a colon that does not start with a slash is refused:
    the library has no URL, and its resolution never reaches the clone. *)
Theorem parsedURL_presence {World : Type}
    (Stat : World -> string -> option FileInfo)
    (Getwd : World -> outcome string)
    (MkdirAll : World -> string -> World * option string)
    (Clone OtherClone : World -> Library -> string -> bool -> World * outcome string)
    (Hash : World -> string -> World * outcome string)
    (WorkingCopy : World -> Library -> string -> World * string)
    (fn line directory : string) (useHead allowLocal : bool) (w : World) :
  let lib := read_entry fn line in
  URL lib = URL.ParseRequestURI (UrlOrPath lib)
  ∧ (∀ scheme host path,
       UrlOrPath lib = absolute_uri scheme host path ->
       scheme ≠ "" ->
       URL.all_bytes is_alpha scheme = true ->
       URL.all_bytes host_byte host = true ->
       URL.all_bytes plain_byte path = true ->
       URL lib
       = Some (URL.mkURL (ToLower scheme) "" None host (String "/" path) false ""))
  ∧ (∀ s, UrlOrPath lib = String "/" s ->
          URL.all_bytes plain_byte s = true ->
          URL lib = Some (URL.mkURL "" "" None "" (String "/" s) false ""))
  ∧ (is_Some (URL lib) ->
     no_override Stat Getwd allowLocal lib w ->
     resolve_library Stat Getwd MkdirAll Clone Hash WorkingCopy
       directory useHead allowLocal lib w
     = match Clone w lib directory useHead with
       | (w1, Failed msg) => (w1, Err (ErrExternal msg))
       | (w1, Done clonePath) =>
           if String.eqb clonePath "" then (w1, Err (ErrUnableToFind lib))
           else record_path Getwd lib clonePath w1
       end)
  ∧ (UrlOrPath lib ≠ "*" ->
     ContainsByte (UrlOrPath lib) ":" = false ->
     HasPrefix (UrlOrPath lib) "/" = false ->
     URL lib = None
     ∧ resolve_library Stat Getwd MkdirAll Clone Hash WorkingCopy
         directory useHead allowLocal lib w
       = resolve_library Stat Getwd MkdirAll OtherClone Hash WorkingCopy
           directory useHead allowLocal lib w).
Proof.
  intros lib.
  assert (Hurl : URL lib = URL.ParseRequestURI (UrlOrPath lib)) by done.
  split; [done|]. split; [|split; [|split]].
  - intros scheme host path Hs Hne Hscheme Hhost Hpath. rewrite Hurl, Hs.
    by apply ParseRequestURI_absolute_uri.
  - intros s Hs Hplain. rewrite Hurl, Hs.
    by apply ParseRequestURI_absolute_path.
  - intros [u Hu] Hno.
    by rewrite (resolve_url_source Stat Getwd MkdirAll Clone Hash WorkingCopy
                  directory useHead allowLocal lib w u Hno Hu).
  - intros Hstar Hcolon Hslash.
    assert (Hnone : URL lib = None).
    { rewrite Hurl. by apply ParseRequestURI_relative_path. }
    split; [done|]. by apply resolve_local_ignores_clone.
Qed.

Lemma parsedURL_presence_witness :
  URL (read_entry "deps.txt" "https://x/a.git 1.0")
  = Some (URL.mkURL "https" "" None "x" "/a.git" false "")
  ∧ URL (read_entry "deps.txt" "/local/b")
    = Some (URL.mkURL "" "" None "" "/local/b" false "")
  ∧ disk_resolve "cache" false false lib_a (local_disk true)
    = match disk_Clone (local_disk true) lib_a "cache" false with
      | (w1, Failed msg) => (w1, Err (ErrExternal msg))
      | (w1, Done clonePath) =>
          if String.eqb clonePath "" then (w1, Err (ErrUnableToFind lib_a))
          else record_path disk_Getwd lib_a clonePath w1
      end
  ∧ URL (read_entry "deps.txt" "local/b 1.0") = None.
Proof.
  destruct (parsedURL_presence disk_Stat disk_Getwd disk_MkdirAll disk_Clone
              disk_CloneAny disk_Hash disk_WorkingCopy "deps.txt"
              "https://x/a.git 1.0" "cache" false false (local_disk true))
    as (_ & Huri & _ & Hclone & _).
  destruct (parsedURL_presence disk_Stat disk_Getwd disk_MkdirAll disk_Clone
              disk_CloneAny disk_Hash disk_WorkingCopy "deps.txt" "/local/b"
              "cache" false false (local_disk true)) as (_ & _ & Hpath & _).
  destruct (parsedURL_presence disk_Stat disk_Getwd disk_MkdirAll disk_Clone
              disk_CloneAny disk_Hash disk_WorkingCopy "deps.txt" "local/b 1.0"
              "cache" false false (local_disk true)) as (_ & _ & _ & _ & Hrel).
  split; [|split; [|split]].
  - apply (Huri "https" "x" "a.git"); try reflexivity. discriminate.
  - apply Hpath; reflexivity.
  - apply Hclone; [by eexists|by left].
  - apply Hrel; [vm_compute; discriminate|reflexivity|reflexivity].
Defined.

(** C3 as stated fails: the absolute path [/local/b] gets a URL. *)
Lemma absolute_path_has_URL :
  UrlOrPath (read_entry "deps.txt" "/local/b") = "/local/b"
  ∧ URL (read_entry "deps.txt" "/local/b")
    = Some (URL.mkURL "" "" None "" "/local/b" false "").
Proof. split; reflexivity. Qed.

(** ** Writing back modified manifests *)

Lemma byConfiguration_fold (libs : list Library) (f : string) :
  ∀ m : gmap string (list Library),
    fold_left
      (fun m lib =>
         <[Configuration lib := (default [] (m !! Configuration lib) ++ [lib])%list]> m)
      libs m !! f
    = match filter (fun lib => Configuration lib = f) libs with
      | [] => m !! f
      | group => Some (default [] (m !! f) ++ group)%list
      end.
Proof.
  induction libs as [|lib rest IH]; intros m; [done|].
  cbn [fold_left]. rewrite IH.
  destruct (decide (Configuration lib = f)) as [Heq|Hne].
  - rewrite filter_cons_True by done. rewrite Heq, lookup_insert_eq. simpl.
    destruct (filter _ rest); [done|]. by rewrite <- app_assoc.
  - rewrite filter_cons_False by done. by rewrite lookup_insert_ne.
Qed.

(** The group of a manifest holds its libraries in list order. *)
Lemma byConfiguration_lookup (d : Dependencies) (f : string) (group : list Library) :
  byConfiguration (Libraries d) !! f = Some group
  ↔ group = group_of d f ∧ group ≠ [].
Proof.
  unfold byConfiguration, group_of. rewrite byConfiguration_fold, lookup_empty.
  destruct (filter _ (Libraries d)) as [|lib rest]; simpl.
  - split; [done|]. by intros [-> ?].
  - split; [by intros [= <-]|]. by intros [-> _].
Qed.

Lemma existsb_Modified (group : list Library) :
  existsb Modified group = true ↔ ∃ lib, lib ∈ group ∧ Modified lib = true.
Proof.
  rewrite existsb_exists. split; intros (lib & Hin & Hm); exists lib.
  - split; [by apply list_elem_of_In|done].
  - split; [by apply list_elem_of_In|done].
Qed.



(** [SaveModified] has a run from every store. *)
Lemma SaveModified_runs (d : Dependencies) (force : bool) (fs : Files) :
  ∃ result, SaveModified d force fs result.
Proof.
  exists (save_groups force (map_to_list (byConfiguration (Libraries d))) fs).
  by exists (map_to_list (byConfiguration (Libraries d))).
Qed.


Example save_modified_sample :
  (two_group_run false).2 = None
  ∧ contents (two_group_run false).1 !! "a/deps.txt"
    = Some ("https://x/a.git 1.0" +:+ newline +:+ "lib/c 2.0 /sub" +:+ newline)
  ∧ contents (two_group_run false).1 !! "b/deps.txt" = Some "old b"
  ∧ contents (two_group_run true).1 !! "b/deps.txt"
    = Some ("https://x/b.git *" +:+ newline).
Proof. repeat split; vm_compute; reflexivity. Qed.

(** ** Parse, serialize, parse *)

Lemma manifest_line_written (lib : Library) :
  manifest_line lib = written_line lib +:+ newline.
Proof.
  unfold manifest_line, written_line.
  destruct (negb _); by rewrite !append_assoc.
Qed.

Lemma length_append (s t : string) :
  String.length (s +:+ t) = (String.length s + String.length t)%nat.
Proof. induction s as [|c s IH]; [done|]. rewrite append_cons. simpl. by rewrite IH. Qed.

Lemma last_byte_append (s : string) (c : ascii) (t : string) :
  last_byte (s +:+ String c t) = last_byte (String c t).
Proof.
  induction s as [|b s IH]; [done|]. rewrite append_cons.
  cbn [last_byte]. rewrite IH.
  destruct (s +:+ String c t) eqn:E; [|done].
  by destruct s.
Qed.

Lemma dropCR_id (l : string) :
  last_byte l ≠ Some carriage_return -> Bufio.dropCR l = l.
Proof.
  unfold Bufio.dropCR. destruct (last_byte l) as [c|]; [|done].
  destruct (Ascii.eqb_spec c "013") as [->|]; done.
Qed.

Lemma drop_last_without (s : string) (b : ascii) :
  ContainsByte s b = false -> ContainsByte (drop_last s) b = false.
Proof.
  induction s as [|c s IH]; [done|]. cbn [ContainsByte].
  intros [Hc Hs]%orb_false_elim. destruct s as [|c' s']; [done|].
  change (drop_last (String c (String c' s')))
    with (String c (drop_last (String c' s'))).
  cbn [ContainsByte]. by rewrite Hc, (IH Hs).
Qed.

Lemma dropCR_without (l : string) (b : ascii) :
  ContainsByte l b = false -> ContainsByte (Bufio.dropCR l) b = false.
Proof.
  intros H. unfold Bufio.dropCR. destruct (last_byte l) as [c|]; [|done].
  destruct (Ascii.eqb c "013"); [by apply drop_last_without|done].
Qed.

(** The text of lines that hold no newline splits back into these lines,
    and an empty piece after the last newline. *)
Lemma Split_lines (ls : list string) :
  Forall (fun l => ContainsByte l "010" = false) ls ->
  Split (fold_right (fun l acc => l +:+ newline +:+ acc) "" ls) "010"
  = (ls ++ [""])%list.
Proof.
  induction 1 as [|l ls Hl _ IH]; [done|]. cbn [fold_right].
  change (newline +:+ ?x) with (String "010" x).
  by rewrite (Split_app_sep _ _ _ Hl), IH.
Qed.

Lemma drop_final_empty_snoc (ls : list string) :
  Bufio.drop_final_empty (ls ++ [""]) = ls.
Proof.
  induction ls as [|l ls IH]; [done|].
  cbn [app Bufio.drop_final_empty]. rewrite IH.
  destruct l; [|done]. by destruct ls.
Qed.

Lemma scan_tokens_short (ls : list string) :
  Forall (fun l => (len l <? Bufio.MaxScanTokenSize)%Z = true
                   ∧ last_byte l ≠ Some carriage_return) ls ->
  Bufio.scan_tokens ls = (ls, false).
Proof.
  induction 1 as [|l ls [Hlen Hcr] _ IH]; [done|].
  cbn [Bufio.scan_tokens]. by rewrite Hlen, IH, (dropCR_id _ Hcr).
Qed.

(** Every token of a scan is free of newlines. *)
Lemma drop_final_empty_sub (ls : list string) (l : string) :
  l ∈ Bufio.drop_final_empty ls -> l ∈ ls.
Proof.
  induction ls as [|x ls IH]; [done|]. cbn [Bufio.drop_final_empty].
  destruct x as [|c x]; [destruct ls as [|y ls]|].
  - intros H. by apply elem_of_nil in H.
  - intros [->|H]%elem_of_cons; [by left|right; by apply IH].
  - intros [->|H]%elem_of_cons; [by left|right; by apply IH].
Qed.

Lemma scan_tokens_sub (raw : list string) (t : string) :
  t ∈ (Bufio.scan_tokens raw).1 -> ∃ l, l ∈ raw ∧ t = Bufio.dropCR l.
Proof.
  induction raw as [|l raw IH]; simpl.
  - intros H. by apply elem_of_nil in H.
  - destruct (len l <? Bufio.MaxScanTokenSize)%Z; [|intros H; by apply elem_of_nil in H].
    destruct (Bufio.scan_tokens raw) as [toks too_long]. simpl in *.
    intros [->|H]%elem_of_cons.
    + exists l. split; [by left|done].
    + destruct (IH H) as (l' & Hl' & ->). exists l'. split; [by right|done].
Qed.

Lemma Scan_tokens_no_newline (content t : string) :
  t ∈ (Bufio.Scan content).1 -> ContainsByte t "010" = false.
Proof.
  unfold Bufio.Scan, Bufio.raw_lines.
  intros (l & Hl%drop_final_empty_sub & ->)%scan_tokens_sub.
  apply dropCR_without. by apply (Split_fields_no_sep content "010").
Qed.

Lemma read_entry_of_fields (fn line : string) :
  read_entry fn line
  = entry_of_fields fn (default "" (Split line " " !! 0%nat))
      (default "" (Split line " " !! 1%nat))
      (default "/" (Split line " " !! 2%nat)).
Proof. reflexivity. Qed.

Lemma field_without (line : string) (i : nat) (dflt : string) (b : ascii) :
  ContainsByte line b = false ->
  ContainsByte dflt b = false ->
  ContainsByte (default dflt (Split line " " !! i)) b = false.
Proof.
  intros Hline Hd. destruct (Split line " " !! i) as [f|] eqn:E; [|done].
  simpl. apply (Split_fields_without line " " b f Hline).
  by apply list_elem_of_lookup_2 in E.
Qed.

Lemma field_no_space (line : string) (i : nat) (dflt : string) :
  ContainsByte dflt " " = false ->
  ContainsByte (default dflt (Split line " " !! i)) " " = false.
Proof.
  intros Hd. destruct (Split line " " !! i) as [f|] eqn:E; [|done].
  simpl. apply (Split_fields_no_sep line " " f).
  by apply list_elem_of_lookup_2 in E.
Qed.

Lemma star_without (v : string) (b : ascii) :
  ContainsByte "*" b = false ->
  ContainsByte v b = false ->
  ContainsByte (if String.eqb v "" then "*" else v) b = false.
Proof. intros Hs Hv. by destruct (String.eqb v ""). Qed.

(** Reading the written line of a library gives the library back, with
    the star for an empty version. *)
Lemma reread_entry (fn u v r : string) :
  ContainsByte u " " = false ->
  ContainsByte v " " = false ->
  ContainsByte r " " = false ->
  read_entry fn (written_line (entry_of_fields fn u v r))
  = normalize_version (entry_of_fields fn u v r).
Proof.
  intros Hu Hv Hr. rewrite read_entry_of_fields.
  unfold written_line, normalize_version.
  cbn [entry_of_fields UrlOrPath Version RelativePath Configuration Modified Name URL].
  pose proof (star_without v " " eq_refl Hv) as Hstar.
  destruct (String.eqb r "/") eqn:E; cbn [negb].
  - apply String.eqb_eq in E as ->.
    by rewrite (Split_two_fields _ _ Hu Hstar).
  - rewrite (Split_three_fields _ _ _ Hu Hstar Hr).
    transitivity (entry_of_fields fn u (if String.eqb v "" then "*" else v) r);
      [reflexivity|].
    unfold entry_of_fields. by rewrite E.
Qed.

Lemma written_line_without (fn u v r : string) (b : ascii) :
  ContainsByte " " b = false ->
  ContainsByte "*" b = false ->
  ContainsByte u b = false ->
  ContainsByte v b = false ->
  ContainsByte r b = false ->
  ContainsByte (written_line (entry_of_fields fn u v r)) b = false.
Proof.
  intros Hspace Hst Hu Hv Hr. unfold written_line.
  cbn [entry_of_fields UrlOrPath Version RelativePath].
  pose proof (star_without v b Hst Hv) as Hstar.
  destruct (negb _); rewrite !ContainsByte_app, Hu, Hspace, Hstar, ?Hr; done.
Qed.

Lemma manifest_text_lines (libs : list Library) :
  manifest_text libs
  = fold_right (fun l acc => l +:+ newline +:+ acc) "" (map written_line libs).
Proof.
  unfold manifest_text. induction libs as [|lib libs IH]; [done|].
  cbn [map fold_right]. by rewrite IH, manifest_line_written, append_assoc.
Qed.

Lemma last_byte_tail (s : string) (c : ascii) (t : string) :
  t ≠ "" -> last_byte (s +:+ String c t) = last_byte t.
Proof. intros Ht. rewrite last_byte_append. by destruct t. Qed.

Lemma written_line_last_byte (lib : Library) :
  last_byte (Version lib) ≠ Some carriage_return ->
  last_byte (RelativePath lib) ≠ Some carriage_return ->
  last_byte (written_line lib) ≠ Some carriage_return.
Proof.
  intros Hv Hr. unfold written_line.
  set (version := if String.eqb (Version lib) "" then "*" else Version lib).
  assert (Hversion : version ≠ "" ∧ last_byte version ≠ Some carriage_return).
  { subst version. destruct (Version lib); split; done. }
  destruct Hversion as [Hne Hlast].
  destruct (negb _).
  - rewrite <- !append_assoc. rewrite (append_assoc _ " " (RelativePath lib)).
    change (" " +:+ RelativePath lib) with (String " " (RelativePath lib)).
    rewrite last_byte_append. by destruct (RelativePath lib).
  - change (" " +:+ version) with (String " " version).
    by rewrite (last_byte_tail _ _ _ Hne).
Qed.

(** A second parse has no conflict when the first had none and no
    unpinned entry comes before an entry of the same source that is pinned
    to something else than the star. *)
Lemma normalize_version_no_conflict (libs : list Library) :
  ¬ conflicting_pair libs ->
  (∀ i j li lj, (i < j)%nat -> libs !! i = Some li -> libs !! j = Some lj ->
                UrlOrPath li = UrlOrPath lj -> Version li = "" ->
                Version lj = "" ∨ Version lj = "*") ->
  ¬ conflicting_pair (map normalize_version libs).
Proof.
  intros Hfirst Hstar (i & j & li' & lj' & Hij & Hi & Hj & Hu & Hne & Hdiff).
  rewrite list_lookup_fmap in Hi, Hj.
  destruct (libs !! i) as [li|] eqn:Ei; [|done].
  destruct (libs !! j) as [lj|] eqn:Ej; [|done].
  injection Hi as <-. injection Hj as <-. cbn in Hu, Hne, Hdiff.
  destruct (String.eqb_spec (Version li) "") as [Hempty|Hpinned].
  - destruct (Hstar i j li lj Hij Ei Ej Hu Hempty) as [Hv|Hv];
      rewrite Hv in Hdiff; done.
  - destruct (decide (Version li = Version lj)) as [Hsame|Hother].
    + rewrite <- Hsame in Hdiff.
      destruct (String.eqb_spec (Version li) ""); done.
    + apply Hfirst. by exists i, j, li, lj.
Qed.

Lemma manifest_line_normalize (lib : Library) :
  manifest_line (normalize_version lib) = manifest_line lib.
Proof.
  unfold manifest_line, normalize_version.
  cbn [Version RelativePath UrlOrPath]. by destruct (Version lib).
Qed.

Lemma reread_read_entry (fn line : string) :
  read_entry fn (written_line (read_entry fn line))
  = normalize_version (read_entry fn line).
Proof.
  rewrite (read_entry_of_fields fn line).
  apply reread_entry; by apply field_no_space.
Qed.

Lemma written_line_no_newline (fn line : string) :
  ContainsByte line "010" = false ->
  ContainsByte (written_line (read_entry fn line)) "010" = false.
Proof.
  intros Hline. rewrite (read_entry_of_fields fn line).
  apply written_line_without; try done; by apply field_without.
Qed.

Lemma written_line_short (lib : Library) :
  (len (manifest_line lib) <= Bufio.MaxScanTokenSize)%Z ->
  (len (written_line lib) <? Bufio.MaxScanTokenSize)%Z = true.
Proof.
  rewrite manifest_line_written. unfold len. rewrite length_append.
  change (String.length newline) with 1%nat. intros H.
  apply Z.ltb_lt. lia.
Qed.

(** The scan of a written manifest gives the written lines back. *)
Lemma Scan_manifest_text (fn : string) (lines : list string) :
  let libs := map (read_entry fn) lines in
  Forall (fun l => ContainsByte l "010" = false) lines ->
  Forall (fun lib => last_byte (Version lib) ≠ Some carriage_return
                     ∧ last_byte (RelativePath lib) ≠ Some carriage_return
                     ∧ (len (manifest_line lib) <= Bufio.MaxScanTokenSize)%Z) libs ->
  Bufio.Scan (manifest_text libs) = (map written_line libs, false).
Proof.
  intros libs Hlines Hlibs. unfold Bufio.Scan, Bufio.raw_lines.
  rewrite manifest_text_lines, Split_lines, drop_final_empty_snoc.
  - apply scan_tokens_short. apply Forall_fmap.
    eapply Forall_impl; [exact Hlibs|]. intros lib (Hv & Hr & Hlen). split.
    + by apply written_line_short.
    + by apply written_line_last_byte.
  - subst libs. rewrite Forall_fmap, Forall_fmap.
    eapply Forall_impl; [exact Hlines|]. intros line Hline.
    by apply written_line_no_newline.
Qed.

(** C6, as the code has it.  Take a manifest that [Read] reads without an
    error, in which no version or mount path ends in a carriage return, every
    written line fits the scanner, and no entry without a version comes
    before an entry of the same source with a version other than the star.
    Writing the libraries back to the file and reading the file again gives
    the same libraries, field by field, with the star where the version was
    empty; and writing these again gives the same text. *)
Theorem parse_serialize_parse (fs : Files) (fn : string) (d1 : Dependencies) :
  Read fs NewEmptyDependencies fn = Returned d1 None ->
  writable fs fn = true ->
  (∀ lib, lib ∈ Libraries d1 ->
          last_byte (Version lib) ≠ Some carriage_return
          ∧ last_byte (RelativePath lib) ≠ Some carriage_return
          ∧ (len (manifest_line lib) <= Bufio.MaxScanTokenSize)%Z) ->
  (∀ i j li lj, (i < j)%nat ->
                Libraries d1 !! i = Some li -> Libraries d1 !! j = Some lj ->
                UrlOrPath li = UrlOrPath lj -> Version li = "" ->
                Version lj = "" ∨ Version lj = "*") ->
  ∃ fs',
    Write d1 fn fs = (fs', None)
    ∧ Read fs' NewEmptyDependencies fn
      = Returned (mkDependencies (map normalize_version (Libraries d1))) None
    ∧ manifest_text (map normalize_version (Libraries d1))
      = manifest_text (Libraries d1).
Proof.
  intros Hread Hw Hfields Hstar.
  destruct (contents fs !! fn) as [content|] eqn:Hc;
    [|unfold Read in Hread; by rewrite Hc in Hread].
  rewrite (Read_outcome _ _ _ _ Hc) in Hread. cbn [Libraries NewEmptyDependencies] in Hread.
  pose proof (read_lines_fatal_iff fn (Bufio.Scan content).1 [] ∅) as Hfatal.
  destruct (read_lines fn (Bufio.Scan content).1 [] ∅) as [libs|u] eqn:Hlibs; [|done].
  apply read_lines_inl in Hlibs. cbn [app] in Hlibs.
  injection Hread as <- _. cbn [Libraries] in *. subst libs.
  set (lines := (Bufio.Scan content).1) in *.
  assert (Hfirst : ¬ conflicting_pair (map (read_entry fn) lines)).
  { intros Hp. destruct Hfatal as [_ Hfatal].
    destruct Hfatal as [u Hu]; [by right|done]. }
  assert (Hlines : Forall (fun l => ContainsByte l "010" = false) lines).
  { apply Forall_forall. intros l Hl. by apply (Scan_tokens_no_newline content). }
  assert (Hscan := Scan_manifest_text fn lines Hlines
                     (proj2 (Forall_forall _ _) Hfields)).
  cbv zeta in Hscan.
  assert (Hentries : map (read_entry fn) (map written_line (map (read_entry fn) lines))
                     = map normalize_version (map (read_entry fn) lines)).
  { rewrite !map_map. apply map_ext. intros line. apply reread_read_entry. }
  eexists. split; [unfold Write; by rewrite Hw|]. split.
  - cbn [Libraries]. erewrite Read_outcome by (cbn [contents]; apply lookup_insert_eq).
    rewrite Hscan. cbn [fst snd Libraries NewEmptyDependencies].
    pose proof (read_lines_fatal_iff fn
                  (map written_line (map (read_entry fn) lines)) [] ∅) as Hsecond.
    destruct (read_lines fn (map written_line (map (read_entry fn) lines)) [] ∅)
      as [libs|u] eqn:Hlibs.
    + apply read_lines_inl in Hlibs. cbn [app] in Hlibs. by rewrite Hlibs, Hentries.
    + destruct Hsecond as [[Hclash|Hpair] _]; [by eauto| |].
      * by apply clashes_empty in Hclash.
      * rewrite Hentries in Hpair.
        by apply (normalize_version_no_conflict _ Hfirst Hstar) in Hpair.
  - unfold manifest_text. rewrite map_map. f_equal.
    apply map_ext. intros lib. apply manifest_line_normalize.
Qed.

Lemma parse_serialize_parse_witness :
  ∃ fs',
    Write sample_libraries "deps.txt" sample_manifest = (fs', None)
    ∧ Read fs' NewEmptyDependencies "deps.txt"
      = Returned (mkDependencies (map normalize_version (Libraries sample_libraries)))
          None
    ∧ manifest_text (map normalize_version (Libraries sample_libraries))
      = manifest_text (Libraries sample_libraries).
Proof.
  apply (parse_serialize_parse sample_manifest "deps.txt" sample_libraries).
  - vm_compute. reflexivity.
  - reflexivity.
  - intros lib Hin. unfold sample_libraries in Hin. cbn [Libraries] in Hin.
    repeat (apply elem_of_cons in Hin as [->|Hin]);
      [| | |by apply elem_of_nil in Hin];
      (split; [vm_compute; discriminate|split; vm_compute; discriminate]).
  - intros i j li lj Hij Hi Hj Hu Hv.
    destruct i as [|[|[|i]]]; destruct j as [|[|[|j]]];
      try lia; try discriminate Hi; try discriminate Hj;
      injection Hi as <-; injection Hj as <-;
      try discriminate Hu; try discriminate Hv.
Defined.

(** C6 as stated fails: this manifest is read without an error, its
    libraries are written back as [lib/a *] and [lib/a 1.0], and the second
    read ends fatally with a version mismatch. *)
Lemma second_parse_is_fatal :
  Read unpinned_then_pinned NewEmptyDependencies "deps.txt"
  = Returned unpinned_then_pinned_libraries None
  ∧ contents (Write unpinned_then_pinned_libraries "deps.txt" unpinned_then_pinned).1
    !! "deps.txt"
    = Some ("lib/a *" +:+ newline +:+ "lib/a 1.0" +:+ newline)
  ∧ Read (Write unpinned_then_pinned_libraries "deps.txt" unpinned_then_pinned).1
      NewEmptyDependencies "deps.txt"
    = Fatal "lib/a".
Proof. repeat split; vm_compute; reflexivity. Qed.

(** * Further properties of the code *)

(** ** What [Read] does to the set *)

(** X1.  A call of [Read] that returns only appends: the libraries it was
    given are a prefix of the ones it leaves.  When the file cannot be
    opened the set is unchanged and the error is the open error; an empty
    file adds nothing and gives no error. *)
Theorem Read_appends (fs : Files) (d d' : Dependencies) (fn : string)
    (err : option error) :
  Read fs d fn = Returned d' err ->
  Libraries d `prefix_of` Libraries d'
  ∧ (contents fs !! fn = None -> d' = d ∧ err = Some (ErrOpen fn))
  ∧ (contents fs !! fn = Some "" -> Libraries d' = Libraries d ∧ err = None).
Proof.
  intros Hread. destruct (contents fs !! fn) as [content|] eqn:Hc.
  - rewrite (Read_outcome _ _ _ _ Hc) in Hread.
    destruct (read_lines fn _ (Libraries d) ∅) as [libs|u] eqn:Hlibs; [|done].
    injection Hread as <- <-. pose proof (read_lines_inl _ _ _ _ _ Hlibs) as ->.
    split; [by eexists|split; [done|]].
    intros [= ->]. by rewrite app_nil_r.
  - unfold Read in Hread. rewrite Hc in Hread. injection Hread as <- <-.
    split; [done|split; done].
Qed.

Lemma Read_appends_witness :
  Libraries two_manifests_first `prefix_of` Libraries two_manifests_both
  ∧ (contents two_manifests !! "b/deps.txt" = None ->
     two_manifests_both = two_manifests_first
     ∧ (None : option error) = Some (ErrOpen "b/deps.txt"))
  ∧ (contents two_manifests !! "b/deps.txt" = Some "" ->
     Libraries two_manifests_both = Libraries two_manifests_first
     ∧ (None : option error) = None).
Proof.
  apply (Read_appends two_manifests two_manifests_first two_manifests_both
           "b/deps.txt" None).
  vm_compute. reflexivity.
Defined.

(** X2.  Every library that [Read] adds carries the name of the file it
    was read from, is not modified, has the URL that [ParseRequestURI] makes
    of its source, and has a source, version and mount path free of spaces
    and newlines. *)
Theorem Read_new_libraries (fs : Files) (d d' : Dependencies) (fn : string)
    (err : option error) (lib : Library) :
  Read fs d fn = Returned d' err ->
  lib ∈ drop (length (Libraries d)) (Libraries d') ->
  Configuration lib = fn
  ∧ Modified lib = false
  ∧ URL lib = URL.ParseRequestURI (UrlOrPath lib)
  ∧ fields_without lib " "
  ∧ fields_without lib "010".
Proof.
  intros Hread Hin. destruct (contents fs !! fn) as [content|] eqn:Hc.
  - rewrite (Read_outcome _ _ _ _ Hc) in Hread.
    destruct (read_lines fn _ (Libraries d) ∅) as [libs|u] eqn:Hlibs; [|done].
    injection Hread as <- _. pose proof (read_lines_inl _ _ _ _ _ Hlibs) as ->.
    cbn [Libraries] in Hin. rewrite drop_app_length in Hin.
    apply list_elem_of_fmap in Hin as (line & -> & Hline).
    apply Scan_tokens_no_newline in Hline.
    repeat split; try done; rewrite read_entry_of_fields;
      cbn [entry_of_fields UrlOrPath Version RelativePath];
      (by apply field_no_space) || (by apply field_without).
  - unfold Read in Hread. rewrite Hc in Hread. injection Hread as <- _.
    rewrite drop_all in Hin. by apply elem_of_nil in Hin.
Qed.

Lemma Read_new_libraries_witness :
  let lib := read_entry "b/deps.txt" "https://x/a.git 2.0" in
  Configuration lib = "b/deps.txt"
  ∧ Modified lib = false
  ∧ URL lib = URL.ParseRequestURI (UrlOrPath lib)
  ∧ fields_without lib " "
  ∧ fields_without lib "010".
Proof.
  apply (Read_new_libraries two_manifests two_manifests_first two_manifests_both
           "b/deps.txt" None).
  - vm_compute. reflexivity.
  - cbn. apply list_elem_of_singleton. reflexivity.
Defined.

(** X3.  A line has at most three fields that count: what follows a third
    space is ignored, so it is not in the library and is lost when the
    manifest is written back. *)
Theorem read_entry_ignores_further_fields (fn u v r rest : string) :
  ContainsByte u " " = false ->
  ContainsByte v " " = false ->
  ContainsByte r " " = false ->
  read_entry fn (u +:+ " " +:+ v +:+ " " +:+ r +:+ " " +:+ rest)
  = read_entry fn (u +:+ " " +:+ v +:+ " " +:+ r)
  ∧ written_line (read_entry fn (u +:+ " " +:+ v +:+ " " +:+ r +:+ " " +:+ rest))
    = written_line (read_entry fn (u +:+ " " +:+ v +:+ " " +:+ r)).
Proof.
  intros Hu Hv Hr.
  assert (Heq : read_entry fn (u +:+ " " +:+ v +:+ " " +:+ r +:+ " " +:+ rest)
                = read_entry fn (u +:+ " " +:+ v +:+ " " +:+ r)).
  { rewrite !read_entry_of_fields, (Split_three_fields u v r Hu Hv Hr).
    change (" " +:+ v +:+ " " +:+ r +:+ " " +:+ rest)
      with (String " " (v +:+ String " " (r +:+ String " " rest))).
    by rewrite (Split_app_sep _ _ _ Hu), (Split_app_sep _ _ _ Hv),
      (Split_app_sep _ _ _ Hr). }
  by rewrite Heq.
Qed.

Lemma read_entry_ignores_further_fields_witness :
  read_entry "deps.txt" ("lib/c" +:+ " " +:+ "2" +:+ " " +:+ "/sub" +:+ " "
                         +:+ "extra words")
  = read_entry "deps.txt" ("lib/c" +:+ " " +:+ "2" +:+ " " +:+ "/sub")
  ∧ written_line (read_entry "deps.txt" ("lib/c" +:+ " " +:+ "2" +:+ " " +:+ "/sub"
                                         +:+ " " +:+ "extra words"))
    = written_line (read_entry "deps.txt" ("lib/c" +:+ " " +:+ "2" +:+ " " +:+ "/sub")).
Proof.
  apply (read_entry_ignores_further_fields "deps.txt" "lib/c" "2" "/sub"
           "extra words"); reflexivity.
Defined.

(** ** Line endings and long lines *)

Lemma drop_last_snoc (l : string) (c : ascii) :
  drop_last (l +:+ String c "") = l.
Proof.
  induction l as [|b l IH]; [done|]. rewrite append_cons.
  cbn [drop_last]. rewrite IH.
  destruct (l +:+ String c "") eqn:E; [|done]. by destruct l.
Qed.

Lemma dropCR_snoc (l : string) :
  Bufio.dropCR (l +:+ String carriage_return "") = l.
Proof.
  unfold Bufio.dropCR. rewrite last_byte_append. cbn [last_byte].
  by rewrite drop_last_snoc.
Qed.

Lemma len_append (s t : string) : len (s +:+ t) = (len s + len t)%Z.
Proof. unfold len. rewrite length_append. lia. Qed.

Lemma join_lines_crlf (lines : list string) :
  join_lines crlf lines
  = join_lines newline (map (fun l => l +:+ String carriage_return "") lines).
Proof.
  induction lines as [|l lines IH]; [done|].
  cbn [join_lines fold_right map]. fold (join_lines crlf lines).
  fold (join_lines newline (map (fun l => l +:+ String carriage_return "") lines)).
  rewrite IH. by rewrite append_assoc.
Qed.

Lemma scan_tokens_with_cr (lines : list string) :
  Forall (fits 1) lines ->
  Bufio.scan_tokens (map (fun l => l +:+ String carriage_return "") lines)
  = (lines, false).
Proof.
  induction 1 as [|l lines Hl _ IH]; [done|].
  cbn [map Bufio.scan_tokens]. rewrite IH, dropCR_snoc.
  assert ((len (l +:+ String carriage_return "") <? Bufio.MaxScanTokenSize)%Z = true)
    as ->; [|done].
  apply Z.ltb_lt. rewrite len_append. unfold fits in Hl.
  change (len (String carriage_return "")) with 1%Z. lia.
Qed.

(** X4.  A manifest with CR LF line ends is read like the same manifest
    with LF line ends: the scanner gives the same lines, without the
    carriage returns, so [Read] ends the same way.  The lines hold no
    newline, do not end in a carriage return themselves, and fit the
    scanner with their carriage return. *)
Theorem Read_crlf_like_lf (fs_lf fs_crlf : Files) (d : Dependencies)
    (fn : string) (lines : list string) :
  Forall (fun l => ContainsByte l "010" = false
                   ∧ last_byte l ≠ Some carriage_return
                   ∧ fits 1 l) lines ->
  contents fs_lf !! fn = Some (join_lines newline lines) ->
  contents fs_crlf !! fn = Some (join_lines crlf lines) ->
  Bufio.Scan (join_lines crlf lines) = (lines, false)
  ∧ Read fs_crlf d fn = Read fs_lf d fn.
Proof.
  intros Hlines Hlf Hcrlf.
  assert (Hscan_lf : Bufio.Scan (join_lines newline lines) = (lines, false)).
  { unfold Bufio.Scan, Bufio.raw_lines, join_lines.
    rewrite Split_lines, drop_final_empty_snoc.
    - apply scan_tokens_short. eapply Forall_impl; [exact Hlines|].
      intros l (_ & Hcr & Hfit). split; [|done].
      apply Z.ltb_lt. unfold fits in Hfit. lia.
    - eapply Forall_impl; [exact Hlines|]. by intros l (Hnl & _). }
  assert (Hscan_crlf : Bufio.Scan (join_lines crlf lines) = (lines, false)).
  { rewrite join_lines_crlf. unfold Bufio.Scan, Bufio.raw_lines, join_lines.
    rewrite Split_lines, drop_final_empty_snoc.
    - apply scan_tokens_with_cr. eapply Forall_impl; [exact Hlines|].
      by intros l (_ & _ & Hfit).
    - apply Forall_fmap. eapply Forall_impl; [exact Hlines|].
      intros l (Hnl & _). cbn. by rewrite ContainsByte_app, Hnl. }
  split; [done|].
  by rewrite (Read_outcome _ _ _ _ Hlf), (Read_outcome _ _ _ _ Hcrlf),
    Hscan_lf, Hscan_crlf.
Qed.

Lemma Read_crlf_like_lf_witness :
  Bufio.Scan (join_lines crlf crlf_lines) = (crlf_lines, false)
  ∧ Read crlf_manifest NewEmptyDependencies "deps.txt"
    = Read lf_manifest NewEmptyDependencies "deps.txt".
Proof.
  apply (Read_crlf_like_lf lf_manifest crlf_manifest NewEmptyDependencies
           "deps.txt" crlf_lines); [|reflexivity|reflexivity].
  repeat constructor; try (vm_compute; discriminate); vm_compute; reflexivity.
Defined.

Lemma Split_snoc_sep (s : string) (sep : ascii) :
  Split (s +:+ String sep "") sep = (Split s sep ++ [""])%list.
Proof.
  induction s as [|c s IH].
  - change ("" +:+ String sep "") with (String sep ""). cbn [Split].
    by rewrite Ascii.eqb_refl.
  - rewrite append_cons. cbn [Split]. rewrite IH.
    destruct (Ascii.eqb c sep); [done|].
    destruct (Split s sep) as [|f fs] eqn:E; [by apply Split_nonempty in E|done].
Qed.

Lemma last_Split (s : string) (sep : ascii) :
  s ≠ "" -> last_byte s ≠ Some sep -> last (Split s sep) ≠ Some "".
Proof.
  induction s as [|c s IH]; [done|]. intros _ Hlast.
  destruct s as [|c' s'].
  - cbn in *. destruct (Ascii.eqb_spec c sep) as [->|Hne]; [done|]. cbn. done.
  - change (last_byte (String c (String c' s'))) with (last_byte (String c' s'))
      in Hlast.
    specialize (IH ltac:(done) Hlast).
    remember (String c' s') as rest eqn:Hrest. clear Hrest Hlast.
    cbn [Split].
    destruct (Split rest sep) as [|f fs] eqn:E; [by apply Split_nonempty in E|].
    destruct (Ascii.eqb c sep); [done|].
    destruct fs as [|g gs]; [done|]. exact IH.
Qed.

Lemma drop_final_empty_id (ls : list string) :
  last ls ≠ Some "" -> Bufio.drop_final_empty ls = ls.
Proof.
  induction ls as [|l ls IH]; [done|]. intros Hlast.
  cbn [Bufio.drop_final_empty].
  destruct ls as [|l' ls'].
  - destruct l; [done|done].
  - rewrite IH; [by destruct l|]. exact Hlast.
Qed.

(** X5.  The newline after the last line is optional: a manifest that does
    not end in a newline is read like the same manifest with one more
    newline at its end. *)
Theorem Read_final_newline_optional (fs fs_nl : Files) (d : Dependencies)
    (fn content : string) :
  content ≠ "" ->
  last_byte content ≠ Some "010"%char ->
  contents fs !! fn = Some content ->
  contents fs_nl !! fn = Some (content +:+ newline) ->
  Read fs_nl d fn = Read fs d fn.
Proof.
  intros Hne Hlast Hc Hnl.
  rewrite (Read_outcome _ _ _ _ Hc), (Read_outcome _ _ _ _ Hnl).
  assert (Bufio.Scan (content +:+ newline) = Bufio.Scan content) as ->; [|done].
  unfold Bufio.Scan, Bufio.raw_lines, newline.
  rewrite Split_snoc_sep, drop_final_empty_snoc.
  by rewrite (drop_final_empty_id _ (last_Split _ _ Hne Hlast)).
Qed.

Lemma Read_final_newline_optional_witness :
  Read terminated_manifest NewEmptyDependencies "deps.txt"
  = Read unterminated_manifest NewEmptyDependencies "deps.txt".
Proof.
  apply (Read_final_newline_optional unterminated_manifest terminated_manifest
           NewEmptyDependencies "deps.txt"
           ("https://x/a.git 1.0" +:+ newline +:+ "local/b"));
    try reflexivity; vm_compute; discriminate.
Defined.

(** The tokens of a scan are the raw lines before the first that is too
    long, without their carriage returns. *)
Lemma scan_tokens_cases (raw : list string) :
  match Bufio.scan_tokens raw with
  | (toks, true) =>
      ∃ pre long post,
        raw = (pre ++ long :: post)%list ∧ Forall (fits 0) pre
        ∧ (Bufio.MaxScanTokenSize <= len long)%Z
        ∧ toks = map Bufio.dropCR pre
  | (toks, false) => Forall (fits 0) raw ∧ toks = map Bufio.dropCR raw
  end.
Proof.
  induction raw as [|l raw IH]; [done|]. cbn [Bufio.scan_tokens].
  destruct (len l <? Bufio.MaxScanTokenSize)%Z eqn:Hl.
  - apply Z.ltb_lt in Hl.
    assert (Hfit : fits 0 l) by (unfold fits; lia).
    destruct (Bufio.scan_tokens raw) as [toks [|]].
    + destruct IH as (pre & long & post & -> & Hpre & Hlong & ->).
      exists (l :: pre), long, post. repeat split; try done. by constructor.
    + destruct IH as [Hraw ->]. split; [by constructor|done].
  - apply Z.ltb_ge in Hl. exists [], l, raw. repeat split; done.
Qed.

(** X6.  A line of 65536 bytes or more stops the scan: [Read] returns
    [bufio.ErrTooLong], and the set has gained the libraries of the lines
    before that line only; the lines after it are not read.  Without this
    error every line was short enough and has its library. *)
Theorem Read_too_long (fs : Files) (d d' : Dependencies) (fn content : string)
    (err : option error) :
  contents fs !! fn = Some content ->
  Read fs d fn = Returned d' err ->
  (err = Some ErrTooLong ->
   ∃ pre long post,
     Bufio.raw_lines content = (pre ++ long :: post)%list
     ∧ Forall (fits 0) pre
     ∧ (Bufio.MaxScanTokenSize <= len long)%Z
     ∧ Libraries d'
       = (Libraries d ++ map (fun l => read_entry fn (Bufio.dropCR l)) pre)%list)
  ∧ (err = None ->
     Forall (fits 0) (Bufio.raw_lines content)
     ∧ Libraries d'
       = (Libraries d
          ++ map (fun l => read_entry fn (Bufio.dropCR l)) (Bufio.raw_lines content))%list).
Proof.
  intros Hc Hread. rewrite (Read_outcome _ _ _ _ Hc) in Hread.
  destruct (read_lines fn _ (Libraries d) ∅) as [libs|u] eqn:Hlibs; [|done].
  injection Hread as <- <-. pose proof (read_lines_inl _ _ _ _ _ Hlibs) as ->.
  unfold Bufio.Scan in *. pose proof (scan_tokens_cases (Bufio.raw_lines content)) as H.
  destruct (Bufio.scan_tokens (Bufio.raw_lines content)) as [toks [|]]; cbn [fst snd].
  - split; [|done]. intros _.
    destruct H as (pre & long & post & Hraw & Hpre & Hlong & ->).
    exists pre, long, post. by rewrite map_map.
  - split; [done|]. intros _. destruct H as [Hraw ->]. by rewrite map_map.
Qed.

Lemma Read_too_long_witness :
  (Some ErrTooLong = Some ErrTooLong ->
   ∃ pre long post,
     Bufio.raw_lines ("lib/a" +:+ newline +:+ long_line +:+ newline
                      +:+ "lib/b" +:+ newline)
     = (pre ++ long :: post)%list
     ∧ Forall (fits 0) pre
     ∧ (Bufio.MaxScanTokenSize <= len long)%Z
     ∧ Libraries (mkDependencies [read_entry "deps.txt" "lib/a"])
       = (Libraries NewEmptyDependencies
          ++ map (fun l => read_entry "deps.txt" (Bufio.dropCR l)) pre)%list)
  ∧ (Some ErrTooLong = None ->
     Forall (fits 0)
       (Bufio.raw_lines ("lib/a" +:+ newline +:+ long_line +:+ newline
                         +:+ "lib/b" +:+ newline))
     ∧ Libraries (mkDependencies [read_entry "deps.txt" "lib/a"])
       = (Libraries NewEmptyDependencies
          ++ map (fun l => read_entry "deps.txt" (Bufio.dropCR l))
               (Bufio.raw_lines ("lib/a" +:+ newline +:+ long_line +:+ newline
                                 +:+ "lib/b" +:+ newline)))%list).
Proof.
  apply (Read_too_long long_line_manifest NewEmptyDependencies
           (mkDependencies [read_entry "deps.txt" "lib/a"]) "deps.txt").
  - reflexivity.
  - vm_compute. reflexivity.
Defined.

(** ** Writing and reading back *)

Lemma written_line_of_fields (fn : string) (lib : Library) :
  written_line lib
  = written_line (entry_of_fields fn (UrlOrPath lib) (Version lib) (RelativePath lib)).
Proof. reflexivity. Qed.

Lemma Scan_manifest_text_any (libs : list Library) :
  Forall (fun lib => fields_without lib "010"
                     ∧ last_byte (Version lib) ≠ Some carriage_return
                     ∧ last_byte (RelativePath lib) ≠ Some carriage_return
                     ∧ (len (manifest_line lib) <= Bufio.MaxScanTokenSize)%Z) libs ->
  Bufio.Scan (manifest_text libs) = (map written_line libs, false).
Proof.
  intros Hlibs. unfold Bufio.Scan, Bufio.raw_lines.
  rewrite manifest_text_lines, Split_lines, drop_final_empty_snoc.
  - apply scan_tokens_short. apply Forall_fmap.
    eapply Forall_impl; [exact Hlibs|]. intros lib (_ & Hv & Hr & Hlen). split.
    + by apply written_line_short.
    + by apply written_line_last_byte.
  - apply Forall_fmap. eapply Forall_impl; [exact Hlibs|].
    intros lib ((Hu & Hv & Hr) & _). cbn. rewrite (written_line_of_fields "").
    by apply written_line_without.
Qed.

(** X7.  What [Write] writes, [Read] reads back.  For any libraries (also
    libraries changed after they were read) whose source, version and mount
    path hold no space or newline, whose version and mount path do not end
    in a carriage return, whose lines fit the scanner, and of which no two
    with the same source are written with different versions: reading the
    written file gives one library per library, in order, with the same
    source and mount path, the version as written (the star for an empty
    one), the file's name as manifest, the name and URL computed anew, and
    not modified. *)
Theorem Write_then_Read (fs : Files) (d : Dependencies) (path : string) :
  writable fs path = true ->
  (∀ lib, lib ∈ Libraries d ->
          fields_without lib " " ∧ fields_without lib "010"
          ∧ last_byte (Version lib) ≠ Some carriage_return
          ∧ last_byte (RelativePath lib) ≠ Some carriage_return
          ∧ (len (manifest_line lib) <= Bufio.MaxScanTokenSize)%Z) ->
  (∀ li lj, li ∈ Libraries d -> lj ∈ Libraries d ->
            UrlOrPath li = UrlOrPath lj ->
            written_version li = written_version lj) ->
  ∃ fs',
    Write d path fs = (fs', None)
    ∧ Read fs' NewEmptyDependencies path
      = Returned (mkDependencies (map (reread path) (Libraries d))) None.
Proof.
  intros Hw Hfields Hversions.
  eexists. split; [unfold Write; by rewrite Hw|].
  erewrite Read_outcome by (cbn [contents]; apply lookup_insert_eq).
  rewrite Scan_manifest_text_any.
  2:{ apply Forall_forall. intros lib Hin.
      destruct (Hfields lib Hin) as (_ & Hnl & Hv & Hr & Hlen). done. }
  cbn [fst snd Libraries NewEmptyDependencies].
  assert (Hentries : map (read_entry path) (map written_line (Libraries d))
                     = map (reread path) (Libraries d)).
  { rewrite map_map. apply map_ext_in. intros lib Hin%list_elem_of_In.
    destruct (Hfields lib Hin) as ((Hu & Hv & Hr) & _).
    rewrite (written_line_of_fields path). by rewrite reread_entry. }
  pose proof (read_lines_fatal_iff path (map written_line (Libraries d)) [] ∅)
    as Hfatal.
  destruct (read_lines path (map written_line (Libraries d)) [] ∅)
    as [libs|u] eqn:Hlibs.
  - apply read_lines_inl in Hlibs. cbn [app] in Hlibs. by rewrite Hlibs, Hentries.
  - destruct Hfatal as [[Hclash|Hpair] _]; [by eauto| |].
    + by apply clashes_empty in Hclash.
    + rewrite Hentries in Hpair.
      destruct Hpair as (i & j & li' & lj' & _ & Hi & Hj & Hu & _ & Hdiff).
      rewrite list_lookup_fmap in Hi, Hj.
      destruct (Libraries d !! i) as [li|] eqn:Ei; [|done].
      destruct (Libraries d !! j) as [lj|] eqn:Ej; [|done].
      injection Hi as <-. injection Hj as <-.
      destruct Hdiff.
      apply (Hversions li lj); [by eapply list_elem_of_lookup_2..|done].
Qed.

Lemma Write_then_Read_witness :
  ∃ fs',
    Write edited_libraries "deps.txt" sample_manifest = (fs', None)
    ∧ Read fs' NewEmptyDependencies "deps.txt"
      = Returned (mkDependencies (map (reread "deps.txt") (Libraries edited_libraries)))
          None.
Proof.
  apply (Write_then_Read sample_manifest edited_libraries "deps.txt").
  - reflexivity.
  - intros lib Hin. unfold edited_libraries in Hin. cbn [Libraries] in Hin.
    repeat (apply elem_of_cons in Hin as [->|Hin]);
      [| |by apply elem_of_nil in Hin];
      (repeat split; try reflexivity; vm_compute; discriminate).
  - intros li lj Hi Hj. unfold edited_libraries in Hi, Hj. cbn [Libraries] in Hi, Hj.
    repeat (apply elem_of_cons in Hi as [->|Hi]);
      [| |by apply elem_of_nil in Hi];
      (repeat (apply elem_of_cons in Hj as [->|Hj]);
       [| |by apply elem_of_nil in Hj]); intros Hu;
      try reflexivity; vm_compute in Hu; discriminate Hu.
Defined.

(** ** More on [SaveModified] *)

Lemma save_groups_idle (force : bool) (order : list (string * list Library))
    (fs : Files) :
  (∀ f g, (f, g) ∈ order -> force || existsb Modified g = false) ->
  save_groups force order fs = (fs, None).
Proof.
  induction order as [|[k g] rest IH]; intros Hidle; [done|].
  cbn [save_groups save_group]. rewrite (Hidle k g) by by left.
  apply IH. intros f g' Hin. apply (Hidle f g'). by right.
Qed.

Lemma save_groups_error (force : bool) (order : list (string * list Library)) :
  ∀ fs fs' e,
    save_groups force order fs = (fs', Some e) ->
    ∃ f g, (f, g) ∈ order ∧ force || existsb Modified g = true
           ∧ writable fs f = false ∧ e = ErrOpenFile f.
Proof.
  induction order as [|[k g] rest IH]; intros fs fs' e Hrun; [done|].
  cbn [save_groups save_group] in Hrun.
  destruct (force || existsb Modified g) eqn:Hmod.
  - unfold Write in Hrun. destruct (writable fs k) eqn:Hw.
    + destruct (IH _ _ _ Hrun) as (f & g' & Hin & Hg' & Hwf & He).
      exists f, g'. split; [by right|done].
    + injection Hrun as <- <-. exists k, g. split; [by left|done].
  - destruct (IH _ _ _ Hrun) as (f & g' & Hin & Hg' & Hwf & He).
    exists f, g'. split; [by right|done].
Qed.

Lemma order_groups (d : Dependencies) (order : list (string * list Library)) :
  order ≡ₚ map_to_list (byConfiguration (Libraries d)) ->
  NoDup order.*1
  ∧ ∀ f g, (f, g) ∈ order ↔ g = group_of d f ∧ g ≠ [].
Proof.
  intros Hperm. split.
  - rewrite Hperm. apply NoDup_fst_map_to_list.
  - intros f g. rewrite Hperm, elem_of_map_to_list. apply byConfiguration_lookup.
Qed.

Lemma group_due (d : Dependencies) (force : bool) (f : string) :
  group_of d f ≠ [] ->
  force || existsb Modified (group_of d f) = true ↔ due d force f.
Proof.
  intros Hne. unfold due. rewrite orb_true_iff, existsb_Modified.
  split; [intros [->|H]; split; by eauto|].
  intros [_ [->|H]]; by eauto.
Qed.

(** X8.  Without [force] and without a modified library, [SaveModified]
    does nothing: every run leaves the store as it is and returns no error,
    also when no file could be written. *)
Theorem SaveModified_nothing_to_do (d : Dependencies) (fs : Files)
    (result : Files * option error) :
  (∀ lib, lib ∈ Libraries d -> Modified lib = false) ->
  SaveModified d false fs result ->
  result = (fs, None).
Proof.
  intros Hclean (order & Hperm & <-).
  destruct (order_groups d order Hperm) as [_ Hin].
  apply save_groups_idle. intros f g [-> Hne]%Hin.
  apply not_true_is_false. intros [_ [?|(lib & Hlib & Hmod)]]%group_due; [done| |done].
  unfold group_of in Hlib. apply list_elem_of_filter in Hlib as [_ Hlib].
  by rewrite (Hclean lib Hlib) in Hmod.
Qed.

Lemma SaveModified_nothing_to_do_witness :
  save_groups false (map_to_list (byConfiguration (Libraries sample_libraries)))
    unwritable_files
  = (unwritable_files, None).
Proof.
  apply (SaveModified_nothing_to_do sample_libraries unwritable_files).
  - intros lib Hin. unfold sample_libraries in Hin. cbn [Libraries] in Hin.
    repeat (apply elem_of_cons in Hin as [->|Hin]);
      [| | |by apply elem_of_nil in Hin]; reflexivity.
  - by exists (map_to_list (byConfiguration (Libraries sample_libraries))).
Defined.

(** X9.  Reading manifests and saving without [force] writes nothing: the
    libraries [Read] adds are not modified, so as long as the libraries
    that were there before are not modified either, every run of
    [SaveModified] leaves every file as it is. *)
Theorem Read_then_SaveModified (fs0 fs : Files) (d0 d : Dependencies)
    (fn : string) (err : option error) (result : Files * option error) :
  (∀ lib, lib ∈ Libraries d0 -> Modified lib = false) ->
  Read fs0 d0 fn = Returned d err ->
  SaveModified d false fs result ->
  result = (fs, None).
Proof.
  intros Hclean Hread (order & Hperm & <-).
  destruct (order_groups d order Hperm) as [_ Hin].
  apply save_groups_idle. intros f g [-> Hne]%Hin.
  apply not_true_is_false. intros [_ [?|(lib & Hlib & Hmod)]]%group_due; [done| |done].
  unfold group_of in Hlib. apply list_elem_of_filter in Hlib as [_ Hlib].
  assert (Modified lib = false); [|congruence].
  destruct (contents fs0 !! fn) as [content|] eqn:Hc.
  - rewrite (Read_outcome _ _ _ _ Hc) in Hread.
    destruct (read_lines fn _ (Libraries d0) ∅) as [libs|u] eqn:Hlibs; [|done].
    injection Hread as <- _. apply read_lines_inl in Hlibs. subst libs.
    cbn [Libraries] in Hlib. apply elem_of_app in Hlib as [Hold|Hnew].
    + by apply Hclean.
    + by apply list_elem_of_fmap in Hnew as (line & -> & _).
  - unfold Read in Hread. rewrite Hc in Hread. injection Hread as <- _.
    by apply Hclean.
Qed.

Lemma Read_then_SaveModified_witness :
  save_groups false (map_to_list (byConfiguration (Libraries two_manifests_both)))
    unwritable_files
  = (unwritable_files, None).
Proof.
  apply (Read_then_SaveModified two_manifests unwritable_files two_manifests_first
           two_manifests_both "b/deps.txt" None).
  - intros lib Hin. unfold two_manifests_first in Hin. cbn [Libraries] in Hin.
    apply list_elem_of_singleton in Hin as ->. reflexivity.
  - vm_compute. reflexivity.
  - by exists (map_to_list (byConfiguration (Libraries two_manifests_both))).
Defined.

(** X10.  When a run of [SaveModified] returns an error, it is the error
    of opening a manifest that was due for rewriting and cannot be opened
    for writing. *)
Theorem SaveModified_error (d : Dependencies) (force : bool) (fs fs' : Files)
    (e : error) :
  SaveModified d force fs (fs', Some e) ->
  ∃ f, e = ErrOpenFile f ∧ due d force f ∧ writable fs f = false.
Proof.
  intros (order & Hperm & Hrun).
  destruct (order_groups d order Hperm) as [_ Hin].
  destruct (save_groups_error force order fs fs' e Hrun)
    as (f & g & [-> Hne]%Hin & Hmod & Hw & ->).
  exists f. split; [done|]. split; [by apply group_due|done].
Qed.

Lemma SaveModified_error_witness :
  ∃ f, ErrOpenFile "a/deps.txt" = ErrOpenFile f
       ∧ due two_group_deps false f ∧ writable unwritable_files f = false.
Proof.
  apply (SaveModified_error two_group_deps false unwritable_files unwritable_files).
  exists (map_to_list (byConfiguration (Libraries two_group_deps))).
  split; [reflexivity|]. vm_compute. reflexivity.
Defined.


(** ** Paths of the override check *)

Lemma Clean_nonempty (path : string) : Path.Clean path ≠ "".
Proof.
  unfold Path.Clean. destruct (String.eqb path ""); [done|].
  destruct (HasPrefix path "/"); [done|].
  by destruct (String.eqb_spec (Join (rev (fold_left (Path.clean_step false)
                                             (Split path "/") [])) "/") "").
Qed.

Lemma Path_Join_nonempty (elem : list string) :
  Exists (fun e => e ≠ "") elem -> Path.Join elem ≠ "".
Proof.
  induction elem as [|e rest IH]; intros Hex; [by apply Exists_nil in Hex|].
  cbn [Path.Join]. destruct (String.eqb_spec e "") as [->|Hne].
  - apply IH. by apply Exists_cons in Hex as [?|?].
  - apply Clean_nonempty.
Qed.

(** The elements [Clean] writes are not empty and hold no slash. *)
Lemma clean_step_elements (rooted : bool) (elems out : list string) :
  Forall (fun e => ContainsByte e "/" = false) elems ->
  Forall (fun e => e ≠ "" ∧ ContainsByte e "/" = false) out ->
  Forall (fun e => e ≠ "" ∧ ContainsByte e "/" = false)
    (fold_left (Path.clean_step rooted) elems out).
Proof.
  intros Helems. revert out. induction Helems as [|e elems He _ IH]; intros out Hout;
    [done|].
  cbn [fold_left]. apply IH. unfold Path.clean_step.
  destruct (String.eqb_spec e "") as [->|Hne]; [done|]. cbn [orb].
  destruct (String.eqb e "."); [done|].
  destruct (String.eqb e "..").
  - destruct Hout as [|top rest Htop Hrest].
    + destruct rooted; [done|]. by constructor.
    + destruct (String.eqb top ".."); [|done].
      destruct rooted; [by constructor|]. constructor; [done|]. by constructor.
  - by constructor.
Qed.

Lemma Join_not_rooted (elems : list string) :
  Forall (fun e => e ≠ "" ∧ ContainsByte e "/" = false) elems ->
  HasPrefix (Join elems "/") "/" = false.
Proof.
  intros [|e rest [Hne Hslash] _]; [done|].
  destruct e as [|c e]; [done|]. cbn in Hslash.
  apply orb_false_elim in Hslash as [Hc _].
  destruct rest; cbn [Join]; rewrite ?append_cons; cbn [HasPrefix];
    by rewrite Hc.
Qed.

Lemma Clean_relative (path : string) :
  HasPrefix path "/" = false -> HasPrefix (Path.Clean path) "/" = false.
Proof.
  intros Hrel. unfold Path.Clean. destruct (String.eqb path ""); [done|].
  rewrite Hrel.
  destruct (String.eqb _ ""); [done|].
  apply Join_not_rooted. apply Forall_rev. apply clean_step_elements; [|done].
  apply Forall_forall. intros e He. by apply (Split_fields_no_sep path "/").
Qed.

(** The place of the override is a relative path, and never empty. *)
Lemma override_location_relative (lib : Library) :
  Path.IsAbs (override_location lib) = false ∧ override_location lib ≠ "".
Proof.
  unfold override_location, Path.IsAbs. cbn [Path.Join String.eqb Ascii.eqb].
  change (String.eqb "../" "") with false. cbv iota.
  split; [by apply Clean_relative|apply Clean_nonempty].
Qed.

(** ** Overrides, and the loop of [Refresh] *)

Section RefreshProperties.

Context {World : Type}.
Variable Stat : World -> string -> option FileInfo.
Variable Getwd : World -> outcome string.
Variable MkdirAll : World -> string -> World * option string.
Variable CloneDependency :
  World -> Library -> string -> bool -> World * outcome string.
Variable GetRepositoryHash : World -> string -> World * outcome string.
Variable GetWorkingCopyPathAndName : World -> Library -> string -> World * string.
Variable WriteTemplate :
  World -> string -> list DependencyInfo -> World * option string.

Local Abbreviation check := (checkForLocalOverride Stat Getwd).
Local Abbreviation resolve :=
  (resolve_library Stat Getwd MkdirAll CloneDependency GetRepositoryHash
     GetWorkingCopyPathAndName).
Local Abbreviation resolve_libs :=
  (resolve_all Stat Getwd MkdirAll CloneDependency GetRepositoryHash
     GetWorkingCopyPathAndName).
Local Abbreviation refresh :=
  (Refresh Stat Getwd MkdirAll CloneDependency GetRepositoryHash
     GetWorkingCopyPathAndName WriteTemplate).

Lemma Abs_nonempty (path : string) (w w' : World) (p : string) :
  path ≠ "" -> Abs Getwd path w = (w', Ok p) -> p ≠ "".
Proof.
  intros Hne. unfold Abs. destruct (Path.IsAbs path).
  - intros [= _ <-]. apply Clean_nonempty.
  - unfold bind, read_world, lift_outcome, ret.
    destruct (Getwd w) as [wd|msg]; [|done].
    intros Heq. assert (p = Path.Join [wd; path]) as -> by congruence.
    apply Path_Join_nonempty.
    apply Exists_cons. right. apply Exists_cons. by left.
Qed.

Lemma check_found (lib : Library) (w : World) (s : FileInfo) (wd : string) :
  Stat w (override_location lib) = Some s ->
  IsRegular s = false ->
  Getwd w = Done wd ->
  check lib w = (w, Ok (Path.Join [wd; override_location lib]))
  ∧ Path.Join [wd; override_location lib] ≠ "".
Proof.
  intros Hs Hreg Hwd. destruct (override_location_relative lib) as [Hrel Hne].
  split.
  - unfold checkForLocalOverride. fold (override_location lib).
    rewrite Hs, Hreg. cbn [negb]. unfold Abs. rewrite Hrel.
    unfold bind, read_world, lift_outcome, ret. by rewrite Hwd.
  - apply Path_Join_nonempty. apply Exists_cons. right. apply Exists_cons. by left.
Qed.

(** X12.  The override check answers with the empty path exactly when
    [../name] is missing or is a regular file.  What it finds otherwise is
    never the empty path, so [Refresh] cannot take a found override for a
    missing one; and the check fails only with the error of [os.Getwd]. *)
Theorem checkForLocalOverride_empty_iff (lib : Library) (w : World) :
  (check lib w = (w, Ok "")
   ↔ Stat w (override_location lib) = None
     ∨ ∃ s, Stat w (override_location lib) = Some s ∧ IsRegular s = true)
  ∧ (∀ w' e, check lib w = (w', Err e) ->
             ∃ msg, Getwd w = Failed msg ∧ e = ErrExternal msg ∧ w' = w).
Proof.
  destruct (override_location_relative lib) as [Hrel Hne].
  unfold checkForLocalOverride. fold (override_location lib).
  destruct (Stat w (override_location lib)) as [s|] eqn:Hs.
  - destruct (IsRegular s) eqn:Hreg; cbn [negb].
    + split; [|done]. split; [by eauto|done].
    + unfold Abs. rewrite Hrel. unfold bind, read_world, lift_outcome, ret.
      destruct (Getwd w) as [wd|msg].
      * split; [|done]. split.
        -- intros [= Hempty]. exfalso.
           apply (Path_Join_nonempty [wd; override_location lib]); [|done].
           apply Exists_cons. right. apply Exists_cons. by left.
        -- intros [[=]|(s' & [= <-] & Hs')]. congruence.
      * split.
        -- split; [done|]. intros [[=]|(s' & [= <-] & Hs')]. congruence.
        -- intros w' e [= <- <-]. by exists msg.
  - split; [|done]. split; [by left|done].
Qed.

(** X13.  With overrides allowed and [../name] there (a directory, or
    anything but a regular file), the library resolves to it and the clone
    is not asked.  A library with a URL first gets its placeholder: the
    working copy path is created with [MkdirAll], and a failure to create it
    is the error of [Refresh]; a library without URL changes nothing. *)
Theorem resolve_with_override (directory : string) (useHead : bool)
    (lib : Library) (w : World) (s : FileInfo) (wd : string) :
  Stat w (override_location lib) = Some s ->
  IsRegular s = false ->
  Getwd w = Done wd ->
  resolve directory useHead true lib w
  = match URL lib with
    | None => record_path Getwd lib (Path.Join [wd; override_location lib]) w
    | Some _ =>
        let '(w1, dummyPath) := GetWorkingCopyPathAndName w lib directory in
        match MkdirAll w1 dummyPath with
        | (w2, None) =>
            record_path Getwd lib (Path.Join [wd; override_location lib]) w2
        | (w2, Some msg) => (w2, Err (ErrExternal msg))
        end
    end.
Proof.
  intros Hs Hreg Hwd. destruct (check_found lib w s wd Hs Hreg Hwd) as [Hcheck Hne].
  unfold resolve_library, bind at 1. rewrite override_step_unfold, Hcheck.
  apply String.eqb_neq in Hne. rewrite Hne.
  assert (Hrest : ∀ w2,
            bind (fetch_step Stat CloneDependency GetRepositoryHash directory
                    useHead lib (Path.Join [wd; override_location lib]))
              (fun dependencyPath =>
                 if String.eqb dependencyPath "" then fail (ErrUnableToFind lib)
                 else bind (Abs Getwd dependencyPath)
                        (fun dependencyPath =>
                           ret (mkDependencyInfo (Name lib) dependencyPath
                                  (RelativePath lib)))) w2
            = record_path Getwd lib (Path.Join [wd; override_location lib]) w2).
  { intros w2. unfold bind at 1, fetch_step. rewrite Hne. unfold ret at 1.
    by rewrite Hne. }
  destruct (URL lib); [|apply Hrest].
  destruct (GetWorkingCopyPathAndName w lib directory) as [w1 dummy].
  destruct (MkdirAll w1 dummy) as [w2 [msg|]]; [done|apply Hrest].
Qed.

(** X14.  A blank manifest line gives a library named [.]; with overrides
    allowed its override is looked for at [..], so where the parent
    directory exists the blank line resolves to it. *)
Theorem blank_line_resolves_to_parent (fn directory : string) (useHead : bool)
    (w : World) (s : FileInfo) (wd : string) :
  Stat w ".." = Some s ->
  IsRegular s = false ->
  Getwd w = Done wd ->
  override_location (read_entry fn "") = ".."
  ∧ resolve directory useHead true (read_entry fn "") w
    = record_path Getwd (read_entry fn "") (Path.Join [wd; ".."]) w.
Proof.
  intros Hs Hreg Hwd. split; [reflexivity|].
  destruct (check_found (read_entry fn "") w s wd Hs Hreg Hwd) as [Hcheck Hne].
  change (override_location (read_entry fn "")) with ".." in Hcheck, Hne.
  unfold resolve_library, bind at 1. rewrite override_step_unfold, Hcheck.
  apply String.eqb_neq in Hne. rewrite Hne.
  change (URL (read_entry fn "")) with (@None URL.t). cbv iota.
  unfold bind at 1, fetch_step. rewrite Hne. unfold ret at 1. by rewrite Hne.
Qed.

(** One library, when it resolves, gives an entry with its name, its mount
    path and a path that is not empty. *)
Lemma resolve_entry (directory : string) (useHead allowLocal : bool)
    (lib : Library) (w w' : World) (info : DependencyInfo) :
  resolve directory useHead allowLocal lib w = (w', Ok info) ->
  InfoName info = Name lib ∧ InfoRelativePath info = RelativePath lib
  ∧ InfoPath info ≠ "".
Proof.
  unfold resolve_library, bind at 1.
  destruct (override_step _ _ _ _ directory allowLocal lib w) as [w1 [p1|e]]; [|done].
  unfold bind at 1.
  destruct (fetch_step _ _ _ directory useHead lib p1 w1) as [w2 [p2|e]]; [|done].
  destruct (String.eqb_spec p2 "") as [->|Hne]; [done|].
  unfold bind, ret. destruct (Abs Getwd p2 w2) as [w3 [p3|e]] eqn:Habs; [|done].
  intros [= <- <-]. repeat split. by apply (Abs_nonempty p2 w2 w3).
Qed.

Lemma resolve_all_app (directory : string) (useHead allowLocal : bool)
    (pre post : list Library) :
  ∀ datas project w,
    resolve_libs directory useHead allowLocal (pre ++ post) datas project w
    = match resolve_libs directory useHead allowLocal pre datas project w with
      | (w1, Ok (datas1, project1)) =>
          resolve_libs directory useHead allowLocal post datas1 project1 w1
      | (w1, Err e) => (w1, Err e)
      end.
Proof.
  induction pre as [|lib pre IH]; intros datas project w; [done|].
  cbn [app resolve_all]. unfold bind.
  destruct (resolve directory useHead allowLocal lib w) as [w1 [info|e]]; [|done].
  apply IH.
Qed.

Lemma resolve_all_shape (directory : string) (useHead allowLocal : bool)
    (libs : list Library) :
  ∀ datas0 project0 w w' datas project,
    resolve_libs directory useHead allowLocal libs datas0 project0 w
    = (w', Ok (datas, project)) ->
    ∃ new, datas = (datas0 ++ new)%list
           ∧ map InfoName new = map Name libs
           ∧ map InfoRelativePath new = map RelativePath libs
           ∧ Forall (fun info => InfoPath info ≠ "") new
           ∧ project = default project0
                         ((fun lib => Path.Dir (Configuration lib)) <$> last libs).
Proof.
  induction libs as [|lib libs IH]; intros datas0 project0 w w' datas project Hrun.
  - injection Hrun as <- <- <-. exists []. by rewrite app_nil_r.
  - cbn [resolve_all] in Hrun. unfold bind in Hrun.
    destruct (resolve directory useHead allowLocal lib w) as [w1 [info|e]] eqn:Hlib;
      [|done].
    destruct (resolve_entry _ _ _ _ _ _ _ Hlib) as (Hn & Hr & Hp).
    destruct (IH _ _ _ _ _ _ Hrun) as (new & -> & Hnames & Hrels & Hpaths & ->).
    exists (info :: new). rewrite <- app_assoc. cbn [map app].
    rewrite Hn, Hr, Hnames, Hrels. repeat split; try done.
    + by constructor.
    + destruct libs as [|l libs']; [done|].
      change (last (lib :: l :: libs')) with (last (l :: libs')).
      destruct (last (l :: libs')) eqn:E; [done|]. by apply last_None in E.
Qed.

(** X15.  When the loop of [Refresh] gets through, the list handed to the
    template has one entry per library, in manifest order, with the
    library's derived name and mount path and a path that is not empty; and
    [Refresh] ends as the template writer does. *)
Theorem Refresh_entries (d : Dependencies) (directory : string)
    (useHead allowLocal : bool) (w w' : World) (datas : list DependencyInfo)
    (project : string) :
  resolve_libs directory useHead allowLocal (Libraries d) [] "./" w
  = (w', Ok (datas, project)) ->
  map InfoName datas = map Name (Libraries d)
  ∧ map InfoRelativePath datas = map RelativePath (Libraries d)
  ∧ Forall (fun info => InfoPath info ≠ "") datas
  ∧ refresh d directory useHead allowLocal w
    = match WriteTemplate w' project datas with
      | (w'', None) => (w'', None)
      | (w'', Some msg) => (w'', Some (ErrExternal msg))
      end.
Proof.
  intros Hrun.
  destruct (resolve_all_shape _ _ _ _ _ _ _ _ _ _ Hrun)
    as (new & -> & Hnames & Hrels & Hpaths & _).
  cbn [app]. repeat split; try done. unfold Refresh. by rewrite Hrun.
Qed.

(** X16.  The generated file goes to the directory of the manifest of the
    last library in the set, whatever manifests the other libraries came
    from; for an empty set it goes to [./]. *)
Theorem Refresh_project (d : Dependencies) (directory : string)
    (useHead allowLocal : bool) (w w' : World) (datas : list DependencyInfo)
    (project : string) :
  resolve_libs directory useHead allowLocal (Libraries d) [] "./" w
  = (w', Ok (datas, project)) ->
  project = match last (Libraries d) with
            | Some lib => Path.Dir (Configuration lib)
            | None => "./"
            end.
Proof.
  intros Hrun.
  destruct (resolve_all_shape _ _ _ _ _ _ _ _ _ _ Hrun) as (new & _ & _ & _ & _ & ->).
  by destruct (last (Libraries d)).
Qed.

(** X17.  [Refresh] stops at the first library that fails: its error is
    returned, the world is left as that step left it (what the earlier
    libraries did, such as clones, stays done), the libraries after it are
    not looked at, and the template is not written. *)
Theorem Refresh_stops_at_first_error (directory : string)
    (useHead allowLocal : bool) (pre post : list Library) (lib : Library)
    (w w1 w2 : World) (done_so_far : list DependencyInfo * string) (e : error) :
  resolve_libs directory useHead allowLocal pre [] "./" w = (w1, Ok done_so_far) ->
  resolve directory useHead allowLocal lib w1 = (w2, Err e) ->
  refresh (mkDependencies (pre ++ lib :: post)) directory useHead allowLocal w
  = (w2, Some e).
Proof.
  intros Hpre Hlib. unfold Refresh. cbn [Libraries].
  rewrite resolve_all_app, Hpre. destruct done_so_far as [datas project].
  cbn [resolve_all]. unfold bind. by rewrite Hlib.
Qed.

Lemma resolve_all_needs_URLs (directory : string) (useHead : bool)
    (libs : list Library) :
  ∀ datas0 project0 w w' r,
    resolve_libs directory useHead false libs datas0 project0 w = (w', Ok r) ->
    Forall (fun lib => is_Some (URL lib)) libs.
Proof.
  induction libs as [|lib libs IH]; intros datas0 project0 w w' r Hrun; [done|].
  cbn [resolve_all] in Hrun. unfold bind in Hrun.
  destruct (resolve directory useHead false lib w) as [w1 [info|e]] eqn:Hlib; [|done].
  constructor; [|by eapply IH].
  destruct (URL lib) as [u|] eqn:Hurl; [done|].
  destruct (resolve_local_source Stat Getwd MkdirAll CloneDependency
              GetRepositoryHash GetWorkingCopyPathAndName directory useHead false
              lib w (or_introl eq_refl) Hurl) as (w2 & Hfail & _).
  congruence.
Qed.

(** X18.  Without overrides a library without URL is never resolved, so a
    [Refresh] that returns no error, with overrides not allowed, had a URL
    for every library of the set. *)
Theorem Refresh_without_overrides_needs_URLs (d : Dependencies)
    (directory : string) (useHead : bool) (w w' : World) :
  refresh d directory useHead false w = (w', None) ->
  Forall (fun lib => is_Some (URL lib)) (Libraries d).
Proof.
  unfold Refresh.
  destruct (resolve_libs directory useHead false (Libraries d) [] "./" w)
    as [w1 [r|e]] eqn:Hrun; [|done].
  intros _. by eapply resolve_all_needs_URLs.
Qed.

End RefreshProperties.

Lemma checkForLocalOverride_empty_iff_witness :
  checkForLocalOverride disk_Stat disk_Getwd lib_a (local_disk true)
  = (local_disk true, Ok "")
  ∧ checkForLocalOverride disk_Stat disk_Getwd lib_a sibling_disk
    ≠ (sibling_disk, Ok "").
Proof.
  destruct (checkForLocalOverride_empty_iff disk_Stat disk_Getwd lib_a
              (local_disk true)) as [[_ Hmissing] _].
  destruct (checkForLocalOverride_empty_iff disk_Stat disk_Getwd lib_a
              sibling_disk) as [[Hfound _] _].
  split.
  - apply Hmissing. left. reflexivity.
  - intros Hempty. destruct (Hfound Hempty) as [Hnone|(s & Hs & Hreg)].
    + vm_compute in Hnone. discriminate Hnone.
    + vm_compute in Hs. injection Hs as <-. discriminate Hreg.
Defined.

Lemma resolve_with_override_witness :
  disk_resolve "cache" false true lib_a sibling_disk
  = match URL lib_a with
    | None =>
        record_path disk_Getwd lib_a
          (Path.Join ["/work/project"; override_location lib_a]) sibling_disk
    | Some _ =>
        let '(w1, dummyPath) := disk_WorkingCopy sibling_disk lib_a "cache" in
        match disk_MkdirAll w1 dummyPath with
        | (w2, None) =>
            record_path disk_Getwd lib_a
              (Path.Join ["/work/project"; override_location lib_a]) w2
        | (w2, Some msg) => (w2, Err (ErrExternal msg))
        end
    end.
Proof.
  apply (resolve_with_override disk_Stat disk_Getwd disk_MkdirAll disk_Clone
           disk_Hash disk_WorkingCopy "cache" false lib_a sibling_disk
           (mkFileInfo false true) "/work/project"); reflexivity.
Defined.

Example override_sample :
  disk_resolve "cache" false true lib_a sibling_disk
  = (mkDisk ["cache/a"; "../a"; ".."] true,
     Ok (mkDependencyInfo "a" "/work/a" "/")).
Proof. vm_compute. reflexivity. Qed.

Lemma blank_line_resolves_to_parent_witness :
  override_location (read_entry "deps.txt" "") = ".."
  ∧ disk_resolve "cache" false true (read_entry "deps.txt" "") sibling_disk
    = record_path disk_Getwd (read_entry "deps.txt" "")
        (Path.Join ["/work/project"; ".."]) sibling_disk.
Proof.
  apply (blank_line_resolves_to_parent disk_Stat disk_Getwd disk_MkdirAll
           disk_Clone disk_Hash disk_WorkingCopy "deps.txt" "cache" false
           sibling_disk (mkFileInfo false true) "/work/project"); reflexivity.
Defined.

Lemma Refresh_entries_witness :
  map InfoName [resolved_a] = map Name [lib_a]
  ∧ map InfoRelativePath [resolved_a] = map RelativePath [lib_a]
  ∧ Forall (fun info => InfoPath info ≠ "") [resolved_a]
  ∧ disk_Refresh (mkDependencies [lib_a]) "cache" false false (local_disk true)
    = match disk_WriteTemplate cloned_disk "." [resolved_a] with
      | (w'', None) => (w'', None)
      | (w'', Some msg) => (w'', Some (ErrExternal msg))
      end.
Proof.
  apply (Refresh_entries disk_Stat disk_Getwd disk_MkdirAll disk_Clone disk_Hash
           disk_WorkingCopy disk_WriteTemplate (mkDependencies [lib_a]) "cache"
           false false (local_disk true) cloned_disk [resolved_a] ".").
  vm_compute. reflexivity.
Defined.

Lemma Refresh_project_witness :
  "." = match last (Libraries (mkDependencies [lib_a])) with
        | Some lib => Path.Dir (Configuration lib)
        | None => "./"
        end.
Proof.
  apply (Refresh_project disk_Stat disk_Getwd disk_MkdirAll disk_Clone disk_Hash
           disk_WorkingCopy (mkDependencies [lib_a]) "cache" false false
           (local_disk true) cloned_disk [resolved_a] ".").
  vm_compute. reflexivity.
Defined.

Lemma Refresh_stops_at_first_error_witness :
  disk_Refresh (mkDependencies ([lib_a] ++ lib_relative_b :: [lib_a])) "cache"
    false false (local_disk true)
  = (cloned_disk, Some (ErrUnableToFind lib_relative_b)).
Proof.
  apply (Refresh_stops_at_first_error disk_Stat disk_Getwd disk_MkdirAll
           disk_Clone disk_Hash disk_WorkingCopy disk_WriteTemplate "cache" false
           false [lib_a] [lib_a] lib_relative_b (local_disk true) cloned_disk
           cloned_disk ([resolved_a], ".")); vm_compute; reflexivity.
Defined.

Lemma Refresh_without_overrides_needs_URLs_witness :
  Forall (fun lib => is_Some (URL lib)) (Libraries (mkDependencies [lib_a])).
Proof.
  apply (Refresh_without_overrides_needs_URLs disk_Stat disk_Getwd disk_MkdirAll
           disk_Clone disk_Hash disk_WorkingCopy disk_WriteTemplate
           (mkDependencies [lib_a]) "cache" false (local_disk true) cloned_disk).
  vm_compute. reflexivity.
Defined.

(** ** The groups of [SaveModified] *)

(** X19.  The first loop of [SaveModified] loses nothing and invents
    nothing: every library of the set is in the group of its manifest, and
    a group is never empty, holds exactly the libraries of its manifest, and
    keeps them in the order of the set. *)
Theorem byConfiguration_groups (d : Dependencies) :
  (∀ lib, lib ∈ Libraries d ->
          ∃ g, byConfiguration (Libraries d) !! Configuration lib = Some g ∧ lib ∈ g)
  ∧ (∀ f g, byConfiguration (Libraries d) !! f = Some g ->
            g ≠ []
            ∧ (∀ lib, lib ∈ g ↔ lib ∈ Libraries d ∧ Configuration lib = f)
            ∧ g `sublist_of` Libraries d).
Proof.
  split.
  - intros lib Hin. exists (group_of d (Configuration lib)).
    assert (Hg : lib ∈ group_of d (Configuration lib)).
    { unfold group_of. by apply list_elem_of_filter. }
    split; [|done]. apply byConfiguration_lookup. split; [done|].
    intros Hempty. rewrite Hempty in Hg. by apply elem_of_nil in Hg.
  - intros f g [-> Hne]%byConfiguration_lookup. split; [done|]. split.
    + intros lib. unfold group_of. rewrite list_elem_of_filter. tauto.
    + apply sublist_filter.
Qed.

(** ** Derived names *)

Lemma CutLast_after (s : string) (sep : ascii) :
  match CutLast s sep with
  | Some (_, after) => ContainsByte after sep = false
  | None => ContainsByte s sep = false
  end.
Proof.
  induction s as [|c s IH]; [done|]. cbn [CutLast ContainsByte].
  destruct (CutLast s sep) as [[before after]|]; [done|].
  destruct (Ascii.eqb c sep); [done|]. by rewrite IH.
Qed.

Lemma Base_slash (path : string) :
  Path.Base path = "/" ∨ ContainsByte (Path.Base path) "/" = false.
Proof.
  unfold Path.Base. destruct (String.eqb path ""); [by right|].
  pose proof (CutLast_after (Path.strip_trailing_slashes path) "/") as H.
  destruct (CutLast (Path.strip_trailing_slashes path) "/") as [[before after]|].
  - destruct (String.eqb after ""); [by left|by right].
  - destruct (String.eqb _ ""); [by left|by right].
Qed.

Lemma take_bytes_without (n : nat) (s : string) (b : ascii) :
  ContainsByte s b = false -> ContainsByte (take_bytes n s) b = false.
Proof.
  revert s. induction n as [|n IH]; intros [|c s]; try done.
  cbn [take_bytes ContainsByte]. intros [Hc Hs]%orb_false_elim.
  by rewrite Hc, (IH s Hs).
Qed.

Lemma TrimSuffix_without (s suffix : string) (b : ascii) :
  ContainsByte s b = false -> ContainsByte (TrimSuffix s suffix) b = false.
Proof.
  intros Hs. unfold TrimSuffix. destruct (HasSuffix s suffix); [|done].
  by apply take_bytes_without.
Qed.

Lemma ReplaceByte_without (s : string) (old new : ascii) :
  old ≠ new -> ContainsByte (ReplaceByte s old new) old = false.
Proof.
  intros Hne. induction s as [|c s IH]; [done|]. cbn [ReplaceByte ContainsByte].
  rewrite IH, orb_false_r. destruct (Ascii.eqb_spec c old) as [->|Hc].
  - by apply Ascii.eqb_neq.
  - by apply Ascii.eqb_neq.
Qed.

(** X20.  The derived name of a library holds no slash, so it names one
    directory entry next to the project, unless the path it is taken from
    has no last element (it is made of slashes only, and its base is [/]). *)
Theorem derived_name_has_no_slash (fn line : string) :
  let lib := read_entry fn line in
  ContainsByte (Name lib) "/" = false ∨ Path.Base (name_path lib) = "/".
Proof.
  intros lib. destruct (Base_slash (name_path lib)) as [Hroot|Hbase]; [by right|].
  left. subst lib. rewrite read_entry_of_fields in *.
  unfold name_path in Hbase. unfold entry_of_fields in *. cbn [URL Name] in *.
  set (rel := default "/" (Split line " " !! 2%nat)) in *.
  assert (Hname : ContainsByte
                    match URL.ParseRequestURI (default "" (Split line " " !! 0%nat)) with
                    | Some u => TrimSuffix (Path.Base (URL.Path u))
                                  (Path.Ext (Path.Base (URL.Path u)))
                    | None => Path.Base (default "" (Split line " " !! 0%nat))
                    end "/" = false).
  { destruct (URL.ParseRequestURI _); [by apply TrimSuffix_without|done]. }
  destruct (negb (String.eqb rel "/")); [|done].
  rewrite ContainsByte_app, Hname. by apply ReplaceByte_without.
Qed.
